(** * Daily-plan document tools (daily_tools.py): model and verification

    The Python module keeps a day's plan in a markdown file and offers
    operations that parse it into sections and checkbox tasks, change a
    task's status, insert tasks and notes, and roll unfinished tasks over
    to the next day's file.

    Modelling conventions.
    - A Python [str] is a list of Unicode code points ([N]).  Source
      literals are written as Rocq strings (whose bytes are the UTF-8
      encoding of the literal) and decoded by [u].
    - Python integers used as list indices are [Z]; [py_getitem] and
      [py_insert] follow Python's rules for negative and out-of-range
      indices.
    - The file system is a finite map from paths to the decoded text of
      regular files.  Operations run in a state-and-exception monad. *)

From stdpp Require Import base list strings gmap sorting.
From Stdlib Require Import ZArith NArith Lia.

Local Open Scope Z_scope.

(** ** Python strings *)

Module Py.

Abbreviation char := N (only parsing).
Abbreviation str := (list N) (only parsing).

(** Decoder of UTF-8 byte sequences, used to write source literals. *)
Fixpoint utf8_decode (bs : list N) : str :=
  match bs with
  | [] => []
  | b0 :: r0 =>
    if (b0 <? 128)%N then b0 :: utf8_decode r0
    else if (b0 <? 224)%N then
      match r0 with
      | b1 :: r1 => ((b0 - 192) * 64 + (b1 - 128))%N :: utf8_decode r1
      | _ => []
      end
    else if (b0 <? 240)%N then
      match r0 with
      | b1 :: b2 :: r2 =>
        ((b0 - 224) * 4096 + (b1 - 128) * 64 + (b2 - 128))%N :: utf8_decode r2
      | _ => []
      end
    else
      match r0 with
      | b1 :: b2 :: b3 :: r3 =>
        ((b0 - 240) * 262144 + (b1 - 128) * 4096 + (b2 - 128) * 64 + (b3 - 128))%N
          :: utf8_decode r3
      | _ => []
      end
  end.

Definition u (s : string) : str :=
  utf8_decode (map Ascii.N_of_ascii (String.list_ascii_of_string s)).

#[global] Arguments u : simpl never.

(** [str.isspace] on one code point; the same set is matched by [\s] in
    a [re] pattern over [str]. *)
Definition isspace (c : char) : bool :=
  ((9 <=? c) && (c <=? 13) || (28 <=? c) && (c <=? 32) || (c =? 133) || (c =? 160)
   || (c =? 5760) || (8192 <=? c) && (c <=? 8202) || (c =? 8232) || (c =? 8233)
   || (c =? 8239) || (c =? 8287) || (c =? 12288))%N.

(** Line boundaries of [str.splitlines]. *)
Definition is_linebreak (c : char) : bool :=
  ((10 <=? c) && (c <=? 13) || (28 <=? c) && (c <=? 30) || (c =? 133)
   || (c =? 8232) || (c =? 8233))%N.

Fixpoint lstrip (s : str) : str :=
  match s with
  | [] => []
  | c :: r => if isspace c then lstrip r else s
  end.

Definition rstrip (s : str) : str := rev (lstrip (rev s)).

(** [s.strip()] *)
Definition strip (s : str) : str := rstrip (lstrip s).

(** [s.lstrip(chars)] for a one-character set *)
Fixpoint lstrip_char (x : char) (s : str) : str :=
  match s with
  | [] => []
  | c :: r => if (c =? x)%N then lstrip_char x r else s
  end.

(** [s.startswith(prefix)] *)
Fixpoint startswith (s prefix : str) : bool :=
  match prefix, s with
  | [], _ => true
  | p :: ps, c :: r => (c =? p)%N && startswith r ps
  | _ :: _, [] => false
  end.

(** [s.endswith(suffix)] *)
Definition endswith (s suffix : str) : bool := startswith (rev s) (rev suffix).

(** [s.lower()], restricted to the ASCII letters: in this program it is
    only applied to a matched status mark, which is ASCII. *)
Definition lower_char (c : char) : char :=
  if ((65 <=? c) && (c <=? 90))%N then (c + 32)%N else c.

Definition lower (s : str) : str := map lower_char s.

(** [sep.join(parts)] *)
Fixpoint join (sep : str) (parts : list str) : str :=
  match parts with
  | [] => []
  | [p] => p
  | p :: rest => p ++ sep ++ join sep rest
  end.

(** [s.splitlines()]: a line ends at a line boundary; CR LF is one
    boundary; there is no empty last line after a final boundary. *)
Fixpoint splitlines (s : str) : list str :=
  match s with
  | [] => []
  | c :: r =>
    if is_linebreak c then
      [] :: match r with
            | c' :: r' => if ((c =? 13) && (c' =? 10))%N then splitlines r' else splitlines r
            | [] => []
            end
    else
      match splitlines r with
      | [] => [[c]]
      | l :: ls => (c :: l) :: ls
      end
  end.

(** Text-mode reading with the default [newline=None]: CR LF and a lone
    CR are handed to the program as LF. *)
Fixpoint universal_newlines (s : str) : str :=
  match s with
  | [] => []
  | c :: r =>
    if (c =? 13)%N then
      10%N :: match r with
              | c' :: r' => if (c' =? 10)%N then universal_newlines r' else universal_newlines r
              | [] => []
              end
    else c :: universal_newlines r
  end.

(** [len(l)] *)
Definition len {A} (l : list A) : Z := Z.of_nat (length l).

(** [l[i]]: a negative index counts from the end; [None] stands for
    IndexError. *)
Definition py_getitem {A} (l : list A) (i : Z) : option A :=
  let j := if i <? 0 then i + len l else i in
  if (0 <=? j) && (j <? len l) then l !! Z.to_nat j else None.

(** [l.insert(i, x)]: the index is clamped to the list. *)
Definition py_insert {A} (l : list A) (i : Z) (x : A) : list A :=
  let j := if i <? 0 then Z.max 0 (i + len l) else Z.min i (len l) in
  take (Z.to_nat j) l ++ x :: drop (Z.to_nat j) l.

(** [range(a, b)] and [range(a, b, -1)] *)
Definition range (a b : Z) : list Z := seqZ a (b - a).
Definition range_down (a b : Z) : list Z := reverse (seqZ (b + 1) (a - b)).

(** [d.get(k)] on a dictionary kept as an association list of its items
    in insertion order (keys are distinct). *)
Fixpoint dict_get {V} (d : list (str * V)) (k : str) : option V :=
  match d with
  | [] => None
  | (k', v) :: rest => if bool_decide (k' = k) then Some v else dict_get rest k
  end.

(** [d.get(k, default)] *)
Definition dict_get_default {V} (d : list (str * V)) (k : str) (default : V) : V :=
  match dict_get d k with Some v => v | None => default end.

End Py.

Import Py.

(** ** Constants and patterns of daily_tools.py *)

Definition TASK_STATUS_MAP : list (str * str) :=
  [ (u "[ ]", u "todo");
    (u "[x]", u "done");
    (u "[~]", u "partial");
    (u "[!]", u "cancelled");
    (u "[>]", u "in_progress");
    (u "[?]", u "need_help") ].

(** [{v: k for k, v in TASK_STATUS_MAP.items()}]: a later item with the
    same status would replace an earlier one. *)
Definition dict_set {V} (d : list (str * V)) (k : str) (v : V) : list (str * V) :=
  if bool_decide (is_Some (dict_get d k))
  then map (λ kv, if bool_decide (kv.1 = k) then (k, v) else kv) d
  else d ++ [(k, v)].

Definition STATUS_TO_MARK : list (str * str) :=
  foldl (λ d kv, dict_set d kv.2 kv.1) [] TASK_STATUS_MAP.

(** The character class of the mark in [TASK_MARK_RE]:
    [(?: |x|~|!|>|\?)] under [re.IGNORECASE], so [X] is accepted too. *)
Definition is_mark_char (c : char) : bool :=
  ((c =? 32) || (c =? 120) || (c =? 88) || (c =? 126) || (c =? 33) || (c =? 62)
   || (c =? 63))%N.

(** The tail of [TASK_MARK_RE], group 2 (dot star) followed by [$]:
    the dot is any character but LF, and [$] holds at the end of the
    string or before a final LF. *)
Fixpoint dot_star_eol (s : str) : option str :=
  match s with
  | [] => Some []
  | c :: r =>
    if (c =? 10)%N then match r with [] => Some [] | _ => None end
    else cons c <$> dot_star_eol r
  end.

(** [TASK_MARK_RE.match(line)].  The pattern is, piece by piece,
    [^\s*-\s*], group 1 = [\[(?: |x|~|!|>|\?)\]], [\s*], group 2 = dot
    star, [$].  The result is [(m.group(1), m.group(2))].  Each greedy [\s*] is
    followed by something that no whitespace satisfies, or (the last
    one) gives a match exactly when its longest choice does, so the
    matcher takes the whole whitespace run every time. *)
Definition TASK_MARK_RE_match (line : str) : option (str * str) :=
  match lstrip line with
  | dash :: r1 =>
    if (dash =? 45)%N then
      match lstrip r1 with
      | lb :: m :: rb :: r2 =>
        if ((lb =? 91) && is_mark_char m && (rb =? 93))%N then
          match dot_star_eol (lstrip r2) with
          | Some g2 => Some ([lb; m; rb], g2)
          | None => None
          end
        else None
      | _ => None
      end
    else None
  | [] => None
  end.

(** [H1_RE = ^#\s+], [H2_RE = ^##\s+], [H3_RE = ^###\s+] with [match]. *)
Definition H1_RE_match (line : str) : bool :=
  match line with
  | h :: c :: _ => ((h =? 35) && isspace c)%N
  | _ => false
  end.

Definition H2_RE_match (line : str) : bool :=
  match line with
  | h1 :: h2 :: c :: _ => ((h1 =? 35) && (h2 =? 35) && isspace c)%N
  | _ => false
  end.

Definition H3_RE_match (line : str) : bool :=
  match line with
  | h1 :: h2 :: h3 :: c :: _ => ((h1 =? 35) && (h2 =? 35) && (h3 =? 35) && isspace c)%N
  | _ => false
  end.

(** ** Data model *)

(** [@dataclass class Section]; the field [end] is [end_] here. *)
Record Section_ := mkSection { title : str; start : Z; end_ : Z }.

(** [@dataclass class TaskItem] *)
Record TaskItem := mkTaskItem {
  line_index : Z;
  raw : str;
  status_mark : str;
  status : str;
  text : str;
  section : str;
  subsection : option str;
}.

(** Exceptions that the modelled statements can raise. *)
Inductive exn := IndexError | FileNotFoundError | AttributeError.

(** [line.strip().lstrip('#').strip()] *)
Definition heading_title (line : str) : str := strip (lstrip_char 35%N (strip line)).

(** The loop of [_parse_sections]: [i] is the index of the head of
    [rest], [n] is [len(lines)]. *)
Fixpoint parse_sections_loop (n : Z) (rest : list str) (i : Z)
    (current : option Section_) (sections : list Section_)
    : option Section_ * list Section_ :=
  match rest with
  | [] => (current, sections)
  | line :: rest' =>
    if H2_RE_match line then
      let sections' :=
        match current with
        | Some c => sections ++ [mkSection (title c) (start c) (i - 1)]
        | None => sections
        end in
      parse_sections_loop n rest' (i + 1)
        (Some (mkSection (heading_title line) i (n - 1))) sections'
    else parse_sections_loop n rest' (i + 1) current sections
  end.

Definition _parse_sections (lines : list str) : list Section_ :=
  let '(current, sections) := parse_sections_loop (len lines) lines 0 None [] in
  match current with
  | Some c => sections ++ [c]
  | None => sections
  end.

Definition _section_range (lines : list str) (title_prefix : str) : option (Z * Z) :=
  (λ sec, (start sec, end_ sec)) <$>
    find (λ sec, startswith (title sec) title_prefix) (_parse_sections lines).

(** The loop of [_iter_tasks] over the indices still to visit. *)
Fixpoint iter_tasks_loop (lines : list str) (parent_title : str) (idxs : list Z)
    (current_sub : option str) (results : list TaskItem) : exn + list TaskItem :=
  match idxs with
  | [] => inr results
  | idx :: rest =>
    match py_getitem lines idx with
    | None => inl IndexError
    | Some line =>
      if H3_RE_match line then
        iter_tasks_loop lines parent_title rest (Some (heading_title line)) results
      else
        match TASK_MARK_RE_match line with
        | Some (mark, g2) =>
          let item := {| line_index := idx; raw := line; status_mark := mark;
                         status := dict_get_default TASK_STATUS_MAP (lower mark) (u "todo");
                         text := strip g2; section := parent_title;
                         subsection := current_sub |} in
          iter_tasks_loop lines parent_title rest current_sub (results ++ [item])
        | None => iter_tasks_loop lines parent_title rest current_sub results
        end
    end
  end.

Definition _iter_tasks (lines : list str) (start end_ : Z) (parent_title : str)
    : exn + list TaskItem :=
  iter_tasks_loop lines parent_title (range start (end_ + 1)) None [].

(** [_find_task_line]; [i] is the index of the head of [rest]. *)
Fixpoint find_task_line_loop (rest : list str) (i : Z) (task_text : str) : option Z :=
  match rest with
  | [] => None
  | line :: rest' =>
    match TASK_MARK_RE_match line with
    | None => find_task_line_loop rest' (i + 1) task_text
    | Some (_, g2) =>
      if bool_decide (strip g2 = task_text) then Some i
      else find_task_line_loop rest' (i + 1) task_text
    end
  end.

Definition _find_task_line (lines : list str) (task_text : str) : option Z :=
  find_task_line_loop lines 0 task_text.

Definition FALLBACK_TEMPLATE : str := u "# 📅 今日计划

**☀️ 天气：晴朗，温度 25~32°C，中国·上海**

## 🎯 今日重点任务

### 学习与成长
- [ ] 示例任务：阅读30分钟

## 🌞 生活安排

### 用餐时间
- [ ] 早餐 (8:00 - 8:30)
- [ ] 午餐 (12:00 - 12:30)
- [ ] 晚餐 (18:00 - 18:30)

## 🌙 晚间总结

### 📝 今日总结 (21:00 - 21:30)
- [ ] 回顾今日完成情况

### 📋 明日计划 (21:30 - 22:00)
- [ ] 制定明日计划

## 📊 今日目标

### 🎯 主要目标
- 保持良好作息

## 💡 学习笔记

".

(** ** Files, clock and effects *)

(** What the module reads from its surroundings: the directory of the
    source file ([BASE_DIR]) and the clock.  [datetime.now()] is taken
    to fall on one day during a call; [tomorrow_ymd] is that day plus
    [timedelta(days=1)].  Dates are [(%Y, %m, %d)]. *)
Record env := mkEnv {
  BASE_DIR : str;
  today_ymd : str * str * str;
  tomorrow_ymd : str * str * str;
}.

(** The store: path to decoded text of a regular file.  Directories are
    implicit, so [os.makedirs] changes nothing.  A path names a file as
    it is spelled, and it is a directory when a stored file lies below
    it ([is_directory]). *)
Abbreviation fs := (gmap (list N) (list N)).

Definition M (A : Type) : Type := fs → (exn + A) * fs.

#[global] Instance M_ret : MRet M := λ A a σ, (inr a, σ).
#[global] Instance M_bind : MBind M := λ A B k m σ,
  match m σ with
  | (inl e, σ') => (inl e, σ')
  | (inr a, σ') => k a σ'
  end.

Definition lift {A} (r : exn + A) : M A := λ σ, (r, σ).

Definition LF : str := [10%N].
Definition SEP : str := [47%N].

(** [os.path.join] of posixpath *)
Definition path_join (a : str) (ps : list str) : str :=
  foldl (λ path b,
           if startswith b SEP then b
           else if bool_decide (path = []) || endswith path SEP then path ++ b
           else path ++ SEP ++ b) a ps.

Definition DAILY_ROOT (e : env) : str :=
  path_join (BASE_DIR e) [u "DailyPlan"; u "daily-plans"].

(** [os.path.exists], for a path that is no directory: whether a file is
    stored at it.  A statement about a path that nothing is stored at
    takes [¬ is_directory] as a hypothesis where the caller chooses the
    path. *)
Definition path_exists (p : str) : M bool :=
  λ σ, (inr (bool_decide (is_Some (σ !! p))), σ).

(** [open(path, 'r', encoding='utf-8').read()] *)
Definition read_text (p : str) : M str := λ σ,
  match σ !! p with
  | Some c => (inr (universal_newlines c), σ)
  | None => (inl FileNotFoundError, σ)
  end.

(** [open(path, 'w', encoding='utf-8').write(c)], with LF as the
    platform's line separator, for a text that UTF-8 encodes
    ([encodable]): text read from a file is such a text, and text that
    the caller supplies is taken to be one by hypothesis. *)
Definition write_text (p : str) (c : str) : M unit := λ σ, (inr (), <[p := c]> σ).

(** Names of the files directly inside [dir], as [os.listdir] gives
    them (in no particular order) for a directory without
    sub-directories. *)
Definition listdir (dir : str) : M (list str) := λ σ,
  (inr (omap (λ p, if startswith p (dir ++ SEP)
                   then let name := drop (length dir + 1) p in
                        if bool_decide (47%N ∈ name) then None else Some name
                   else None) (map_to_list σ).*1), σ).

(** [os.path.isdir]: some file lies below [dir]. *)
Definition isdir (dir : str) : M bool := λ σ,
  (inr (bool_decide (Exists (λ p, startswith p (dir ++ SEP) = true) (map_to_list σ).*1)), σ).

Definition _ensure_parents (file_path : str) : M unit := mret ().

Definition _load_file_lines (path : str) : M (list str) :=
  c ← read_text path; mret (splitlines c).

Definition _save_file_lines (path : str) (lines : list str) : M unit :=
  write_text path (join LF lines ++ LF).

(** Values of the dictionaries that the operations return. *)
#[local] Unset Elimination Schemes.
Inductive value :=
| VNone
| VBool (b : bool)
| VInt (n : Z)
| VStr (s : str)
| VList (l : list value)
| VDict (d : list (string * value)).
#[local] Set Elimination Schemes.

Abbreviation result := (list (string * value)).

Definition day_path (e : env) (ymd : str * str * str) : str :=
  let '(y, m, d) := ymd in path_join (DAILY_ROOT e) [y; m; d ++ u ".md"].

Record TodayInfo := mkTodayInfo { info_date : str; info_path : str; info_exists : bool }.

Definition get_today_path (e : env) : M TodayInfo :=
  let '(y, m, d) := today_ymd e in
  let path := day_path e (today_ymd e) in
  ex ← path_exists path;
  mret (mkTodayInfo (y ++ u "-" ++ m ++ u "-" ++ d) path ex).

(** The first statement of every operation that takes [path]:
    [info = get_today_path() if path is None else
            {'path': path, 'exists': os.path.exists(path)}] *)
Definition resolve_info (e : env) (path : option str) : M (str * bool) :=
  match path with
  | None => info ← get_today_path e; mret (info_path info, info_exists info)
  | Some p => ex ← path_exists p; mret (p, ex)
  end.

(** Lexicographic order of [str] by code point, the order of
    [list.sort] on strings. *)
Fixpoint str_leb (a b : str) : bool :=
  match a, b with
  | [], _ => true
  | _ :: _, [] => false
  | x :: a', y :: b' =>
    if (x <? y)%N then true else if (x =? y)%N then str_leb a' b' else false
  end.

Definition str_le (a b : str) : Prop := str_leb a b = true.

#[global] Instance str_le_dec : RelDecision str_le.
Proof. intros a b. unfold str_le. apply _. Defined.

(** [y] and [m] are the first two parts of [info['date'].split('-')]. *)
Definition _guess_template_source (e : env) : M (option str) :=
  info ← get_today_path e;
  let '(y, m, _) := today_ymd e in
  let month_dir := path_join (DAILY_ROOT e) [y; m] in
  isd ← isdir month_dir;
  if isd : bool then
    names ← listdir month_dir;
    let md_files := filter (λ f, endswith f (u ".md") = true) names in
    match last (merge_sort str_le md_files) with
    | Some f => mret (Some (path_join month_dir [f]))
    | None => mret None
    end
  else mret None.

Definition create_today_from_template (e : env) (force : bool) : M result :=
  info ← get_today_path e;
  let path := info_path info in
  ex ← path_exists path;
  if ex && negb force then
    mret [("created"%string, VBool false); ("path"%string, VStr path);
          ("reason"%string, VStr (u "exists"))]
  else
    _ ← _ensure_parents path;
    src ← _guess_template_source e;
    src_ok ← match src with
             | Some s => if bool_decide (s = []) then mret false else path_exists s
             | None => mret false
             end;
    match src, src_ok with
    | Some s, true =>
      ls ← _load_file_lines s;
      let content := join LF ls ++ LF in
      let lines := splitlines content in
      let lines := match lines with
                   | l0 :: rest => if H1_RE_match l0 then u "# 📅 今日计划" :: rest else lines
                   | [] => []
                   end in
      _ ← _save_file_lines path lines;
      mret [("created"%string, VBool true); ("path"%string, VStr path);
            ("source"%string, VStr s)]
    | _, _ =>
      _ ← _save_file_lines path (splitlines FALLBACK_TEMPLATE);
      mret [("created"%string, VBool true); ("path"%string, VStr path);
            ("source"%string, VStr (u "fallback"))]
    end.

(** ** Operations on a day's document *)

(** [task.__dict__] *)
Definition task_dict (t : TaskItem) : value :=
  VDict [ ("line_index"%string, VInt (line_index t)); ("raw"%string, VStr (raw t));
          ("status_mark"%string, VStr (status_mark t)); ("status"%string, VStr (status t));
          ("text"%string, VStr (text t)); ("section"%string, VStr (section t));
          ("subsection"%string, match subsection t with Some s => VStr s | None => VNone end) ].

Definition section_payload (sec : Section_) (tasks : list TaskItem) : value :=
  VDict [ ("title"%string, VStr (title sec));
          ("range"%string, VList [VInt (start sec); VInt (end_ sec)]);
          ("tasks"%string, VList (task_dict <$> tasks)) ].

(** The loop of [read_structured] over the sections; the tasks found
    are kept next to each section. *)
Fixpoint read_sections_loop (lines : list str) (sections : list Section_)
    (payload : list (Section_ * list TaskItem)) : exn + list (Section_ * list TaskItem) :=
  match sections with
  | [] => inr payload
  | sec :: rest =>
    match _iter_tasks lines (start sec) (end_ sec) (title sec) with
    | inl e => inl e
    | inr tasks => read_sections_loop lines rest (payload ++ [(sec, tasks)])
    end
  end.

Definition read_structured (e : env) (path : option str) : M result :=
  '(p, ex) ← resolve_info e path;
  if negb ex then mret [("exists"%string, VBool false); ("path"%string, VStr p)]
  else
    lines ← _load_file_lines p;
    let sections := _parse_sections lines in
    payload ← lift (read_sections_loop lines sections []);
    mret [ ("exists"%string, VBool true); ("path"%string, VStr p);
           ("sections"%string, VList ((λ st, section_payload st.1 st.2) <$> payload)) ].

(** [lines[idx] = x] *)
Definition py_setitem {A} (l : list A) (i : Z) (x : A) : option (list A) :=
  let j := if i <? 0 then i + len l else i in
  if (0 <=? j) && (j <? len l) then Some (<[Z.to_nat j := x]> l) else None.

Definition set_task_status (e : env) (task_text status : str) (path : option str)
    : M result :=
  '(p, ex) ← resolve_info e path;
  if negb ex then
    mret [("updated"%string, VBool false); ("error"%string, VStr (u "not_found"));
          ("path"%string, VStr p)]
  else
    lines ← _load_file_lines p;
    match _find_task_line lines task_text with
    | None => mret [("updated"%string, VBool false);
                    ("error"%string, VStr (u "task_not_found"))]
    | Some idx =>
      line ← lift (from_option inr (inl IndexError) (py_getitem lines idx));
      '(mark, text) ← lift (from_option inr (inl AttributeError) (TASK_MARK_RE_match line));
      let new_mark := dict_get_default STATUS_TO_MARK status (u "[ ]") in
      lines' ← lift (from_option inr (inl IndexError)
                       (py_setitem lines idx (u "- " ++ new_mark ++ u " " ++ text)));
      _ ← _save_file_lines p lines';
      mret [("updated"%string, VBool true); ("line"%string, VInt idx);
            ("new_status"%string, VStr status)]
    end.

(** The backward scan shared by [add_task] and [append_note]:
    [for i in range(end, start, -1): if lines[i].strip(): insert_at = i + 1; break] *)
Fixpoint scan_back (lines : list str) (idxs : list Z) (insert_at : Z) : exn + Z :=
  match idxs with
  | [] => inr insert_at
  | i :: rest =>
    match py_getitem lines i with
    | None => inl IndexError
    | Some l => if bool_decide (strip l ≠ []) then inr (i + 1)
                else scan_back lines rest insert_at
    end
  end.

Definition add_task (e : env) (section_title_prefix task_text status : str)
    (path : option str) : M result :=
  '(p, ex) ← resolve_info e path;
  if negb ex then
    mret [("inserted"%string, VBool false); ("error"%string, VStr (u "not_found"));
          ("path"%string, VStr p)]
  else
    lines ← _load_file_lines p;
    match _section_range lines section_title_prefix with
    | None => mret [("inserted"%string, VBool false);
                    ("error"%string, VStr (u "section_not_found"))]
    | Some (start, end_) =>
      insert_at ← lift (scan_back lines (range_down end_ start) end_);
      let mark := dict_get_default STATUS_TO_MARK status (u "[ ]") in
      let lines' := py_insert lines insert_at (u "- " ++ mark ++ u " " ++ task_text) in
      _ ← _save_file_lines p lines';
      mret [("inserted"%string, VBool true); ("line"%string, VInt insert_at)]
    end.

Definition append_note (e : env) (section_title_prefix note_line : str)
    (path : option str) : M result :=
  '(p, ex) ← resolve_info e path;
  if negb ex then
    mret [("appended"%string, VBool false); ("error"%string, VStr (u "not_found"));
          ("path"%string, VStr p)]
  else
    lines ← _load_file_lines p;
    match _section_range lines section_title_prefix with
    | None => mret [("appended"%string, VBool false);
                    ("error"%string, VStr (u "section_not_found"))]
    | Some (start, end_) =>
      insert_at ← lift (scan_back lines (range_down end_ start) end_);
      let lines' := py_insert lines insert_at (u "- " ++ note_line) in
      _ ← _save_file_lines p lines';
      mret [("appended"%string, VBool true); ("line"%string, VInt insert_at)]
    end.





(** ** A concrete environment for examples *)

Definition env0 : env :=
  mkEnv (u "/srv/assistant") (u "2026", u "11", u "03") (u "2026", u "11", u "04").

Definition today0 : str := u "/srv/assistant/DailyPlan/daily-plans/2026/11/03.md".
Definition tomorrow0 : str := u "/srv/assistant/DailyPlan/daily-plans/2026/11/04.md".

(** ** Notions used in the statements *)

(** The two look-ups as the operations perform them:
    [TASK_STATUS_MAP.get(mark.lower(), 'todo')] and
    [STATUS_TO_MARK.get(status, '[ ]')]. *)
Definition status_for (mark : str) : str :=
  dict_get_default TASK_STATUS_MAP (lower mark) (u "todo").

Definition mark_for (status : str) : str :=
  dict_get_default STATUS_TO_MARK status (u "[ ]").

Definition six_marks : list str :=
  [u "[ ]"; u "[x]"; u "[~]"; u "[!]"; u "[>]"; u "[?]"].

Definition six_statuses : list str :=
  [u "todo"; u "done"; u "partial"; u "cancelled"; u "in_progress"; u "need_help"].



(** The heading lines of a document with their titles and indices
    ([i] is the index of the head of [rest]), and the sections that a
    list of headings delimits in a document of [n] lines.  They describe
    what the loop of [_parse_sections] computes. *)
Fixpoint heads (i : Z) (rest : list str) : list (str * Z) :=
  match rest with
  | [] => []
  | l :: r => if H2_RE_match l then (heading_title l, i) :: heads (i + 1) r
              else heads (i + 1) r
  end.

(** One heading comes before another. *)
Definition before (a b : str * Z) : Prop := a.2 < b.2.

Fixpoint close (n : Z) (hs : list (str * Z)) : list Section_ :=
  match hs with
  | [] => []
  | (t, i) :: tl =>
    mkSection t i (match tl with (_, j) :: _ => j - 1 | [] => n - 1 end) :: close n tl
  end.

(** *** Shapes of a task line *)

Definition all_space (s : str) : Prop := Forall (λ c, isspace c = true) s.

(** The shape as the specification words it: optional leading
    whitespace, a dash, whitespace, a bracket holding one of the six
    marks (either case), whitespace, then free text to the end of the
    line.  Whitespace that is not called optional is at least one
    character. *)
Definition spec_task_shape (line : str) : Prop :=
  ∃ ws1 ws2 m ws3 txt,
    line = ws1 ++ [45%N] ++ ws2 ++ [91%N; m; 93%N] ++ ws3 ++ txt ∧
    all_space ws1 ∧ all_space ws2 ∧ ws2 ≠ [] ∧ all_space ws3 ∧ ws3 ≠ [] ∧
    is_mark_char m = true.

(** The same shape with every whitespace run optional. *)
Definition task_shape (line : str) : Prop :=
  ∃ ws1 ws2 m ws3 txt,
    line = ws1 ++ [45%N] ++ ws2 ++ [91%N; m; 93%N] ++ ws3 ++ txt ∧
    all_space ws1 ∧ all_space ws2 ∧ all_space ws3 ∧ is_mark_char m = true.

(** The strings that [TASK_MARK_RE] accepts: [task_shape], where [eol]
    and the condition on LF spell out the dot and the [$] of the
    pattern.  A line of a loaded document has no LF in it, and for such
    a line this is [task_shape]. *)
Definition re_task_shape (line : str) : Prop :=
  ∃ ws1 ws2 m ws3 txt eol,
    line = ws1 ++ [45%N] ++ ws2 ++ [91%N; m; 93%N] ++ ws3 ++ txt ++ eol ∧
    all_space ws1 ∧ all_space ws2 ∧ all_space ws3 ∧
    is_mark_char m = true ∧ (10%N ∉ txt) ∧ (eol = [] ∨ eol = [10%N]).

(** What a task line contributes to a scan: its index, status and text. *)
Definition task_core (t : TaskItem) : Z * str * str := (line_index t, status t, text t).


Definition core_at (lines : list str) (idx : Z) : option (Z * str * str) :=
  l ← lines !! Z.to_nat idx;
  '(mark, g2) ← TASK_MARK_RE_match l;
  Some (idx, status_for mark, strip g2).

(** What [_iter_tasks] records in an item, apart from the subsection. *)
Definition item_ok (lines : list str) (parent : str) (t : TaskItem) : Prop :=
  ∃ g2, py_getitem lines (line_index t) = Some (raw t) ∧
        TASK_MARK_RE_match (raw t) = Some (status_mark t, g2) ∧
        text t = strip g2 ∧ status t = status_for (status_mark t) ∧ section t = parent.

(** A task line whose parsed text is [txt]. *)
Definition task_with_text (txt : str) (line : str) : Prop :=
  ∃ mark g2, TASK_MARK_RE_match line = Some (mark, g2) ∧ strip g2 = txt.


(** A line is blank when [line.strip()] is empty. *)
Definition blank (l : str) : Prop := strip l = [].

(** A string without any line boundary of [splitlines]. *)
Definition no_linebreak (s : str) : Prop := Forall (λ c, is_linebreak c = false) s.

(** A text that the UTF-8 codec encodes: code points of [str] other than
    the surrogates.  Writing any other text raises UnicodeEncodeError. *)
Definition encodable (s : str) : Prop :=
  Forall (λ c, (c < 55296 ∨ 57343 < c ≤ 1114111)%N) s.

(** [p] is a directory of the store: some stored file lies below it, as
    [isdir] tests; separators at the end of [p] do not count.
    [os.path.exists] holds of a directory, and opening one raises
    IsADirectoryError. *)
Definition dir_name (p : str) : str := rev (lstrip_char 47%N (rev p)).

Definition is_directory (σ : fs) (p : str) : Prop :=
  Exists (λ q, startswith q (dir_name p ++ SEP) = true) (map_to_list σ).*1.

(** The insertion point of [add_task] and [append_note] in a section
    [start .. end_]: after the last non-blank line below the heading,
    or [end_] itself when every line below the heading is blank. *)
Definition insertion_point (lines : list str) (start end_ k : Z) : Prop :=
  (k = end_ ∧ ∀ j l, start < j ≤ end_ → py_getitem lines j = Some l → blank l) ∨
  (∃ l, start < k - 1 ≤ end_ ∧ py_getitem lines (k - 1) = Some l ∧ ¬ blank l ∧
        ∀ j l', k - 1 < j ≤ end_ → py_getitem lines j = Some l' → blank l').

(** *** Rollover *)

(** A path component: not empty and free of the separator. *)
Definition name_part (s : str) : Prop := s ≠ [] ∧ 47%N ∉ s.

(** A part of a date as [strftime] gives it for [%Y], [%m] and [%d]:
    a non-empty string of digits. *)
Definition digits (s : str) : Prop := s ≠ [] ∧ Forall (λ c, (48 ≤ c ≤ 57)%N) s.








(** *** Documents of the scenarios *)

(** The document of the rollover scenario. *)
Definition scenario_doc : str := u "## 🎯 今日重点任务
- [ ] 阅读
- [x] 跑步
- [>] 写周报
".



(** ** Notions used in the further properties *)

(** The line at index [i] is a task line. *)
Definition task_at (lines : list str) (i : Z) : bool :=
  match py_getitem lines i with
  | Some l => bool_decide (is_Some (TASK_MARK_RE_match l))
  | None => false
  end.

(** The indices, among [idxs], of the task lines. *)
Definition task_indices (lines : list str) (idxs : list Z) : list Z :=
  filter (λ i, task_at lines i = true) idxs.

(** [sub] is the subsection label in force just before line [a], for a
    scan that started at line [s]: the title of the nearest [###]
    heading in [s .. a-1], or nothing when there is none. *)
Definition sub_at (lines : list str) (s a : Z) (sub : option str) : Prop :=
  match sub with
  | Some ttl =>
    ∃ j l, s ≤ j < a ∧ py_getitem lines j = Some l ∧ H3_RE_match l = true ∧
           ttl = heading_title l ∧
           ∀ j' l', j < j' < a → py_getitem lines j' = Some l' → H3_RE_match l' = false
  | None => ∀ j l, s ≤ j < a → py_getitem lines j = Some l → H3_RE_match l = false
  end.

(** Where a section lies after [d] lines that are no [##] headings have
    been inserted before line [k]: a section that starts at or after
    [k] moves down as a whole, and a section that reaches down to line
    [k - 1] or further grows by [d]. *)
Definition shift_section (k d : Z) (s : Section_) : Section_ :=
  mkSection (title s) (if start s <? k then start s else start s + d)
            (if end_ s <? k - 1 then end_ s else end_ s + d).

Definition shift_head (k d : Z) (h : str * Z) : str * Z :=
  (h.1, if h.2 <? k then h.2 else h.2 + d).

(** ** Notions for the creation of today's file *)

Definition wf_env (e : env) : Prop :=
  digits (today_ymd e).1.1 ∧ digits (today_ymd e).1.2 ∧ digits (today_ymd e).2.

(** A path that [os.path.join] extends with a separator. *)
Definition open_path (s : str) : Prop := s ≠ [] ∧ endswith s SEP = false.

(** The directory of this month's files, [month_dir] of
    [_guess_template_source]. *)
Definition month_dir (e : env) : str :=
  path_join (DAILY_ROOT e) [(today_ymd e).1.1; (today_ymd e).1.2].

(** The month directory holds files only, no directory. *)
Definition flat_month (e : env) (σ : fs) : Prop :=
  ∀ f, is_Some (σ !! (month_dir e ++ SEP ++ f)) → 47%N ∉ f.


(** What [create_today_from_template] does to the lines of the file it
    copies: a first line that is a [#] heading is replaced. *)
Definition retitle (lines : list str) : list str :=
  match lines with
  | l0 :: rest => if H1_RE_match l0 then u "# 📅 今日计划" :: rest else lines
  | [] => []
  end.

(** A month directory with the files of two earlier days. *)
Definition scenario_month : fs :=
  {[ u "/srv/assistant/DailyPlan/daily-plans/2026/11/01.md" := u "# 旧计划
- [ ] 阅读
";
     u "/srv/assistant/DailyPlan/daily-plans/2026/11/02.md" := u "# 昨日计划
- [x] 跑步
" ]}.

(** No stored file lies on the way to [p]: every directory above [p]
    can be made, as [os.makedirs] of [_ensure_parents] does. *)
Definition no_file_above (σ : fs) (p : str) : Prop :=
  ∀ a, is_Some (σ !! a) → startswith p (a ++ SEP) = false.

(** * The chat log

    The reading side of the chat log: the constants of [src/config.py],
    [MCPTools._load_recent_history] and [MCPTools._build_messages] of
    [src/tools.py], and [api_chat_history] of [src/web_interface.py]. *)

Definition CHAT_LOG_PATH : str := u "logs/chat_history.jsonl".

Definition SYSTEM_PROMPT : str :=
  u "你是用户的私人秘书、好友与老师，语气温和、主动、负责。当用户谈到计划/进度时，帮助规划、检查与总结；必要时提出2-3条可执行的建议，并确认是否要将更改写入今日计划。".

Definition CHAT_HISTORY_WINDOW : Z := 50.

(** [for line in f] on a file opened in text mode: a line ends with its
    LF, which it keeps; a last line without LF is a line too. *)
Fixpoint file_lines (s : str) : list str :=
  match s with
  | [] => []
  | c :: r =>
    if (c =? 10)%N then [c] :: file_lines r
    else match file_lines r with
         | [] => [[c]]
         | l :: ls => (c :: l) :: ls
         end
  end.

(** [l[a:b]] and [l[a:]]: a negative index counts from the end, and
    every index is clamped to the list. *)
Definition py_clamp (n i : Z) : Z := if i <? 0 then Z.max 0 (i + n) else Z.min i n.

Definition py_slice {A} (l : list A) (a b : Z) : list A :=
  let a' := py_clamp (len l) a in
  let b' := py_clamp (len l) b in
  take (Z.to_nat (b' - a')) (drop (Z.to_nat a') l).

Definition py_slice_from {A} (l : list A) (a : Z) : list A :=
  drop (Z.to_nat (py_clamp (len l) a)) l.

(** A [float]: NaN, an infinity, or a finite number [m * 2 ^ e]. *)
Inductive pyfloat := FNaN | FInf (negative : bool) | FFinite (m e : Z).

(** The values that [json.loads] returns.  An object keeps its items in
    order, with distinct keys. *)
#[local] Unset Elimination Schemes.
Inductive json :=
| JNull
| JBool (b : bool)
| JInt (n : Z)
| JFloat (f : pyfloat)
| JStr (s : str)
| JList (l : list json)
| JDict (d : list (str * json)).
#[local] Set Elimination Schemes.

(** The rendering of a [JSONResponse]:
    [json.dumps(v, ensure_ascii=False, allow_nan=False, ...).encode('utf-8')].
    It raises ValueError on a NaN or an infinity and UnicodeEncodeError
    on a string, key or value, that UTF-8 does not encode; [renders]
    tells whether it goes through. *)
Fixpoint renders (v : json) : bool :=
  match v with
  | JNull | JBool _ | JInt _ => true
  | JFloat (FFinite _ _) => true
  | JFloat _ => false
  | JStr s => bool_decide (encodable s)
  | JList l => forallb renders l
  | JDict d => forallb (λ kv, bool_decide (encodable kv.1) && renders kv.2) d
  end.

(** [role in ('user', 'assistant')] *)
Definition role_ok (role : json) : bool :=
  match role with
  | JStr r => bool_decide (r = u "user") || bool_decide (r = u "assistant")
  | _ => false
  end.

(** What ends a request for the history in its [except] branch: an
    exception of the file operations, or the one that rendering the
    page raised. *)
Inductive chat_exn := FileError (e : exn) | RenderError (history : list json).

(** The two answers of [api_chat_history]: the page, with status 200
    and [success] true, or the error, with status 500 and [success]
    false. *)
Inductive history_response :=
| HistoryPage (history : list json) (next_before : option Z) (total : Z)
| HistoryError (error : str).

(** [JSONResponse] of a page: the constructor renders its content, and
    raises when an item does not render. *)
Definition page_response (history : list json) (next_before : option Z) (total : Z)
    : chat_exn + history_response :=
  if forallb renders history then inr (HistoryPage history next_before total)
  else inl (RenderError history).

(** [try: m except Exception as e: h e] *)
Definition try_except {A} (m : M A) (h : exn → M A) : M A := λ σ,
  match m σ with
  | (inl e, σ') => h e σ'
  | (inr a, σ') => (inr a, σ')
  end.

(** The lines of a text file as iterating over it yields them. *)
Definition read_file_lines (p : str) : M (list str) :=
  c ← read_text p; mret (file_lines c).

Definition message (role content : str) : json :=
  JDict [(u "role", JStr role); (u "content", JStr content)].

Section chat_log.

(** [json.loads], with [None] for a text that it rejects, and [str(e)]
    of the exception that the [except] branch of [api_chat_history]
    catches. *)
Variable json_loads : str → option json.
Variable exn_str : chat_exn → str.

(** The loop of [api_chat_history] over the lines of the log.  A line
    that [json.loads] rejects, and a value without [get] (anything but
    an object), end in the [except] branch of the loop. *)
Fixpoint history_loop (lines : list str) (items : list json) : list json :=
  match lines with
  | [] => items
  | line :: rest =>
    let line := strip line in
    if bool_decide (line = []) then history_loop rest items
    else
      match json_loads line with
      | Some (JDict d) =>
        let role := default JNull (dict_get d (u "role")) in
        if role_ok role then history_loop rest (items ++ [JDict d])
        else history_loop rest items
      | _ => history_loop rest items
      end
  end.

(** The [try] of [api_chat_history] with its [except] branch: every
    exception, of the file operations or of the rendering of the page,
    becomes the error answer. *)
Definition try_response (m : M (chat_exn + history_response)) : M history_response := λ σ,
  match m σ with
  | (inl e, σ') => (inr (HistoryError (exn_str (FileError e))), σ')
  | (inr (inl ce), σ') => (inr (HistoryError (exn_str ce)), σ')
  | (inr (inr r), σ') => (inr r, σ')
  end.

Definition api_chat_history (limit : Z) (before : option Z) : M history_response :=
  try_response
    (ex ← path_exists CHAT_LOG_PATH;
     if negb ex then mret (page_response [] None 0)
     else
       lines ← read_file_lines CHAT_LOG_PATH;
       let items := history_loop lines [] in
       let total := len items in
       if total =? 0 then mret (page_response [] None 0)
       else
         let end_idx := match before with
                        | None => total
                        | Some b => Z.max 0 (Z.min b total)
                        end in
         let start_idx := Z.max 0 (end_idx - Z.max 1 limit) in
         let slice_items := py_slice items start_idx end_idx in
         let next_before := if 0 <? start_idx then Some start_idx else None in
         mret (page_response slice_items next_before total)).

(** The loop of [_load_recent_history]. *)
Fixpoint recent_loop (file : list str) (lines : list json) : list json :=
  match file with
  | [] => lines
  | line :: rest =>
    let line := strip line in
    if bool_decide (line = []) then recent_loop rest lines
    else
      match json_loads line with
      | Some (JDict d) =>
        let role := default JNull (dict_get d (u "role")) in
        let content := default (JStr []) (dict_get d (u "content")) in
        if role_ok role
        then recent_loop rest (lines ++ [JDict [(u "role", role); (u "content", content)]])
        else recent_loop rest lines
      | _ => recent_loop rest lines
      end
  end.

Definition _load_recent_history (limit : Z) : M (list json) :=
  try_except
    (ex ← path_exists CHAT_LOG_PATH;
     if negb ex then mret []
     else
       file ← read_file_lines CHAT_LOG_PATH;
       let lines := recent_loop file [] in
       let lines := if 0 <? limit then py_slice_from lines (- limit) else lines in
       mret lines)
    (λ _, mret []).

Definition _build_messages (current_user_text : str) : M (list json) :=
  let messages := if bool_decide (SYSTEM_PROMPT ≠ [])
                  then [message (u "system") SYSTEM_PROMPT] else [] in
  recent ← _load_recent_history CHAT_HISTORY_WINDOW;
  mret (messages ++ recent ++ [message (u "user") current_user_text]).

(** *** Notions for the properties of the chat log *)

(** The items of the log that [api_chat_history] pages over. *)
Definition log_items (σ : fs) : list json :=
  match σ !! CHAT_LOG_PATH with
  | Some c => history_loop (file_lines (universal_newlines c)) []
  | None => []
  end.

(** A client that reads the history page by page, newest page first:
    it starts without [before] and passes the [next_before] of each
    page to the next request, until there is none; an error answer
    brings it no item and ends the reading. *)
Fixpoint page_up (fuel : nat) (limit : Z) (before : option Z) (σ : fs) : list (list json) :=
  match fuel with
  | O => []
  | S n =>
    match api_chat_history limit before σ with
    | (inr (HistoryPage history next_before _), _) =>
      history :: match next_before with
                 | Some b => page_up n limit (Some b) σ
                 | None => []
                 end
    | _ => []
    end
  end.

(** The role and content of a logged item, as sent to the model. *)
Definition role_content (item : json) : json :=
  match item with
  | JDict d => JDict [(u "role", default JNull (dict_get d (u "role")));
                      (u "content", default (JStr []) (dict_get d (u "content")))]
  | _ => item
  end.

End chat_log.

(** A stand-in decoder for the examples of the chat log: a line [u:text]
    or [a:text] is the object of a user or assistant message, [s:text]
    the object of a system message, [n:text] the object of a user
    message with a NaN in it, a line that starts with a bracket is an
    array, and anything else is rejected. *)
Definition example_loads (s : str) : option json :=
  match s with
  | 117%N :: 58%N :: r => Some (message (u "user") r)
  | 97%N :: 58%N :: r => Some (message (u "assistant") r)
  | 115%N :: 58%N :: r => Some (message (u "system") r)
  | 110%N :: 58%N :: r =>
    Some (JDict [(u "role", JStr (u "user")); (u "content", JStr r);
                 (u "score", JFloat FNaN)])
  | 91%N :: _ => Some (JList [])
  | _ => None
  end.

Definition example_log : fs :=
  {[ CHAT_LOG_PATH := u "u:hi
a:hello

not json
[1, 2]
s:be brief
u:bye
" ]}.

(** A log whose second item holds a NaN. *)
Definition nan_log : fs :=
  {[ CHAT_LOG_PATH := u "u:hi
n:oops
" ]}.

(** * Verification *)

(** A closed decidable proposition, settled by evaluation. *)
Ltac decide_closed := apply (bool_decide_unpack _); vm_compute; exact I.

(** ** Sanity checks of the model on concrete inputs *)

Example TASK_MARK_RE_ex1 :
  TASK_MARK_RE_match (u "  - [X]  写周报 ") = Some (u "[X]", u "写周报 ").
Proof. vm_compute. reflexivity. Qed.

Example STATUS_TO_MARK_ex : STATUS_TO_MARK =
  [ (u "todo", u "[ ]"); (u "done", u "[x]"); (u "partial", u "[~]");
    (u "cancelled", u "[!]"); (u "in_progress", u "[>]"); (u "need_help", u "[?]") ].
Proof. vm_compute. reflexivity. Qed.

Example FALLBACK_TEMPLATE_sections :
  _parse_sections (splitlines FALLBACK_TEMPLATE) =
  [ mkSection (u "🎯 今日重点任务") 4 8; mkSection (u "🌞 生活安排") 9 15;
    mkSection (u "🌙 晚间总结") 16 23; mkSection (u "📊 今日目标") 24 28;
    mkSection (u "💡 学习笔记") 29 30 ].
Proof. vm_compute. reflexivity. Qed.

Example day_path_ex :
  day_path env0 (today_ymd env0) = today0 ∧ day_path env0 (tomorrow_ymd env0) = tomorrow0.
Proof. vm_compute. split; reflexivity. Qed.

Example is_directory_ex :
  let σ : fs := {[ today0 := u "# 📅 今日计划
" ]} in
  is_directory σ (u "/srv/assistant/DailyPlan/daily-plans/2026/11") ∧
  is_directory σ (u "/srv/assistant/DailyPlan/daily-plans/2026/11/") ∧
  ¬ is_directory σ today0 ∧ ¬ is_directory σ tomorrow0.
Proof. split_and!; decide_closed. Qed.

Example encodable_ex : encodable (u "新任务") ∧ ¬ encodable [55296%N].
Proof. split; decide_closed. Qed.

Example set_task_status_ex :
  let σ : fs := {[ today0 := u "- [>] 跑步
" ]} in
  set_task_status env0 (u "跑步") (u "done") None σ =
  (inr [("updated"%string, VBool true); ("line"%string, VInt 0);
        ("new_status"%string, VStr (u "done"))],
   {[ today0 := u "- [x] 跑步
" ]}).
Proof. vm_compute. reflexivity. Qed.

(** ** Lists, ranges and dictionaries *)

Lemma py_getitem_nonneg {A} (l : list A) (i : Z) :
  0 ≤ i → py_getitem l i = l !! Z.to_nat i.
Proof.
  intros Hi. unfold py_getitem, len.
  destruct (Z.ltb_spec i 0); [lia|].
  destruct (Z.leb_spec 0 i); [|lia].
  destruct (Z.ltb_spec i (Z.of_nat (length l))); [reflexivity|].
  simpl. symmetry. apply lookup_ge_None. lia.
Qed.

Lemma py_setitem_nonneg {A} (l : list A) (k : nat) (x : A) :
  (k < length l)%nat → py_setitem l (Z.of_nat k) x = Some (<[k := x]> l).
Proof.
  intros Hk. unfold py_setitem, len.
  destruct (Z.ltb_spec (Z.of_nat k) 0); [lia|].
  destruct (Z.leb_spec 0 (Z.of_nat k)); [|lia].
  destruct (Z.ltb_spec (Z.of_nat k) (Z.of_nat (length l))); [|lia].
  simpl. by rewrite Nat2Z.id.
Qed.

Lemma py_insert_nat {A} (l : list A) (k : nat) (x : A) :
  (k ≤ length l)%nat → py_insert l (Z.of_nat k) x = take k l ++ x :: drop k l.
Proof.
  intros Hk. unfold py_insert, len.
  destruct (Z.ltb_spec (Z.of_nat k) 0); [lia|].
  rewrite Z.min_l by lia. by rewrite Nat2Z.id.
Qed.

Lemma length_inserted {A} (l : list A) (k : nat) (x : A) :
  length (take k l ++ x :: drop k l) = S (length l).
Proof.
  rewrite <- (take_drop k l) at 3. rewrite !length_app. simpl. lia.
Qed.

Lemma range_bounds (a b lo hi : Z) :
  lo ≤ a → b ≤ hi → Forall (λ i, lo ≤ i < hi) (range a b).
Proof.
  intros Ha Hb. apply Forall_forall. intros i Hi.
  unfold range in Hi. apply elem_of_seqZ in Hi. lia.
Qed.

Lemma range_down_nil (b : Z) : range_down b b = [].
Proof. unfold range_down. by rewrite seqZ_nil by lia. Qed.

Lemma range_down_S (b : Z) (n : nat) :
  range_down (b + Z.of_nat (S n)) b = (b + Z.of_nat (S n)) :: range_down (b + Z.of_nat n) b.
Proof.
  unfold range_down.
  replace (b + Z.of_nat (S n) - b) with (Z.of_nat (S n)) by lia.
  replace (b + Z.of_nat n - b) with (Z.of_nat n) by lia.
  rewrite seqZ_S, reverse_snoc. f_equal. lia.
Qed.

Lemma dict_get_elem {V} (d : list (str * V)) (k : str) (v : V) :
  dict_get d k = Some v → v ∈ d.*2.
Proof.
  induction d as [|[k' v'] d IH]; simpl; [done|].
  case_bool_decide.
  - intros [= ->]. apply list_elem_of_here.
  - intros H'. apply list_elem_of_further, IH, H'.
Qed.

(** ** Lines of a text *)

Lemma splitlines_no_linebreak (s : str) : Forall no_linebreak (splitlines s).
Proof.
  assert (∀ (n : nat) s, (length s ≤ n)%nat → Forall no_linebreak (splitlines s)) as H.
  { clear s. induction n as [|n IH]; intros s Hn.
    - destruct s; [constructor|simpl in Hn; lia].
    - destruct s as [|c r]; [constructor|]. simpl in Hn. simpl.
      destruct (is_linebreak c) eqn:Hc.
      + constructor; [constructor|].
        destruct r as [|c' r']; [constructor|].
        destruct ((c =? 13)%N && (c' =? 10)%N); apply IH; simpl in *; lia.
      + assert (Forall no_linebreak (splitlines r)) as Hr by (apply IH; lia).
        destruct (splitlines r) as [|l ls]; [repeat constructor; done|].
        apply Forall_cons in Hr as [Hl Hls]. constructor; [by constructor|done]. }
  by apply (H (length s)).
Qed.

Lemma splitlines_line (l rest : str) :
  no_linebreak l → splitlines (l ++ 10%N :: rest) = l :: splitlines rest.
Proof.
  induction 1 as [|c l Hc _ IH]; simpl.
  - by destruct rest.
  - by rewrite Hc, IH.
Qed.

Lemma splitlines_join (ls : list str) :
  ls ≠ [] → Forall no_linebreak ls → splitlines (join LF ls ++ LF) = ls.
Proof.
  induction ls as [|l ls IH]; [done|]. intros _ [Hl Hls]%Forall_cons.
  destruct ls as [|l2 ls].
  - simpl. unfold LF. by rewrite splitlines_line.
  - change (join LF (l :: l2 :: ls)) with (l ++ LF ++ join LF (l2 :: ls)).
    rewrite <- !app_assoc. unfold LF at 1. simpl app at 2.
    rewrite splitlines_line by done. f_equal. by apply IH.
Qed.

Lemma universal_newlines_id (s : str) : 13%N ∉ s → universal_newlines s = s.
Proof.
  induction s as [|c r IH]; [done|]. intros [Hc Hr]%not_elem_of_cons. simpl.
  destruct (N.eqb_spec c 13); [done|]. by rewrite IH.
Qed.

Lemma splitlines_break (c : N) (r : str) :
  is_linebreak c = true → c ≠ 13%N → splitlines (c :: r) = [] :: splitlines r.
Proof.
  intros Hc Hne. simpl. rewrite Hc. apply N.eqb_neq in Hne. rewrite Hne.
  by destruct r.
Qed.

Lemma splitlines_cr (r : str) :
  splitlines (13%N :: r) =
  [] :: splitlines (match r with c' :: r' => if (c' =? 10)%N then r' else r | [] => r end).
Proof.
  destruct r as [|c' r']; [reflexivity|].
  cbn [splitlines]. change (is_linebreak 13) with true. cbv iota.
  change ((13 =? 13)%N) with true. cbn [andb].
  by destruct (c' =? 10)%N.
Qed.

Lemma splitlines_universal_newlines (s : str) :
  splitlines (universal_newlines s) = splitlines s.
Proof.
  assert (∀ (n : nat) s, (length s ≤ n)%nat →
            splitlines (universal_newlines s) = splitlines s) as H.
  { clear s. induction n as [|n IH]; intros s Hn.
    - destruct s; [done|simpl in Hn; lia].
    - destruct s as [|c r]; [done|]. simpl in Hn.
      cbn [universal_newlines]. destruct (N.eqb_spec c 13) as [->|Hc].
      + rewrite splitlines_cr, splitlines_break by done. f_equal.
        destruct r as [|c' r']; [reflexivity|].
        destruct (c' =? 10)%N; apply IH; simpl in *; lia.
      + destruct (is_linebreak c) eqn:Hb.
        * rewrite !splitlines_break by done. f_equal. apply IH. lia.
        * simpl. rewrite Hb. rewrite (IH r) by lia. reflexivity. }
  by apply (H (length s)).
Qed.

Lemma no_linebreak_no_cr (l : str) : no_linebreak l → 13%N ∉ l.
Proof.
  intros Hl Hin. unfold no_linebreak in Hl. rewrite Forall_forall in Hl.
  specialize (Hl _ Hin). done.
Qed.

Lemma join_no_cr (ls : list str) : Forall no_linebreak ls → 13%N ∉ join LF ls ++ LF.
Proof.
  intros Hls. induction Hls as [|l ls Hl Hls IH].
  - simpl. unfold LF. by intros [=]%list_elem_of_singleton.
  - destruct ls as [|l2 ls].
    + simpl. rewrite elem_of_app. intros [H|[=]%list_elem_of_singleton].
      by apply no_linebreak_no_cr in H.
    + change (join LF (l :: l2 :: ls)) with (l ++ LF ++ join LF (l2 :: ls)).
      rewrite <- !app_assoc, !elem_of_app. intros [H|[H|H]].
      * by apply no_linebreak_no_cr in H.
      * by apply list_elem_of_singleton in H.
      * apply IH. by apply elem_of_app.
Qed.

(** Saving break-free lines and loading them again gives them back. *)
Lemma load_save_lines (ls : list str) :
  ls ≠ [] → Forall no_linebreak ls →
  splitlines (universal_newlines (join LF ls ++ LF)) = ls.
Proof.
  intros Hne Hls. rewrite universal_newlines_id by (by apply join_no_cr).
  by apply splitlines_join.
Qed.

Lemma inserted_lines_reload (lines : list str) (k : nat) (x : str) :
  Forall no_linebreak lines → no_linebreak x →
  splitlines (universal_newlines (join LF (take k lines ++ x :: drop k lines) ++ LF))
  = take k lines ++ x :: drop k lines.
Proof.
  intros Hl Hx. apply load_save_lines.
  - by destruct (take k lines).
  - apply Forall_app. split; [by apply Forall_take|].
    constructor; [done|by apply Forall_drop].
Qed.



(** ** The status table *)

Lemma six_statuses_eq : six_statuses =
  [ [116;111;100;111]; [100;111;110;101]; [112;97;114;116;105;97;108];
    [99;97;110;99;101;108;108;101;100]; [105;110;95;112;114;111;103;114;101;115;115];
    [110;101;101;100;95;104;101;108;112] ]%N.
Proof. vm_compute. reflexivity. Qed.

Lemma mark_for_unknown (st : str) : st ∉ six_statuses → mark_for st = u "[ ]".
Proof.
  intros Hnot. unfold mark_for, dict_get_default.
  rewrite STATUS_TO_MARK_ex. rewrite six_statuses_eq in Hnot.
  cbn [dict_get].
  repeat match goal with
  | |- context [bool_decide (?k = st)] =>
      let k' := eval vm_compute in k in
      change k with k'; destruct (bool_decide_reflect (k' = st)) as [<-|_];
      [exfalso; apply Hnot; set_solver|]
  end.
  reflexivity.
Qed.

Lemma mark_for_in_six (st : str) : mark_for st ∈ six_marks.
Proof.
  unfold mark_for, dict_get_default.
  destruct (dict_get STATUS_TO_MARK st) as [v|] eqn:Hv.
  - apply dict_get_elem in Hv. by rewrite STATUS_TO_MARK_ex in Hv.
  - decide_closed.
Qed.

Lemma six_marks_no_linebreak : Forall no_linebreak six_marks.
Proof. decide_closed. Qed.

Lemma task_line_no_linebreak (st txt : str) :
  no_linebreak txt → no_linebreak (u "- " ++ mark_for st ++ u " " ++ txt).
Proof.
  intros Htxt. unfold no_linebreak. rewrite !Forall_app. split_and!; [| | |done].
  - decide_closed.
  - pose proof six_marks_no_linebreak as H. rewrite Forall_forall in H.
    apply H, mark_for_in_six.
  - decide_closed.
Qed.

Lemma note_line_no_linebreak (txt : str) : no_linebreak txt → no_linebreak (u "- " ++ txt).
Proof.
  intros Htxt. unfold no_linebreak. rewrite Forall_app. split; [|done].
  decide_closed.
Qed.

(** C6: the table is a bijection between the six marks and the six
    statuses: mark to status and back is the identity on the six marks,
    status to mark and back is the identity on the six statuses, and a
    status outside the six is given the todo mark [[ ]]. *)
Theorem status_mark_bijection :
  TASK_STATUS_MAP.*1 = six_marks ∧ TASK_STATUS_MAP.*2 = six_statuses ∧
  STATUS_TO_MARK.*1 = six_statuses ∧ STATUS_TO_MARK.*2 = six_marks ∧
  (∀ mark, mark ∈ six_marks → mark_for (status_for mark) = mark) ∧
  (∀ st, st ∈ six_statuses → status_for (mark_for st) = st) ∧
  (∀ st, st ∉ six_statuses → mark_for st = u "[ ]").
Proof.
  split_and!; try (vm_compute; reflexivity).
  - intros mark Hin. unfold six_marks in Hin. set_unfold in Hin.
    destruct_or!; subst; vm_compute; reflexivity.
  - intros st Hin. unfold six_statuses in Hin. set_unfold in Hin.
    destruct_or!; subst; vm_compute; reflexivity.
  - apply mark_for_unknown.
Qed.

Lemma status_mark_bijection_witness :
  mark_for (status_for (u "[>]")) = u "[>]" ∧
  status_for (mark_for (u "need_help")) = u "need_help" ∧
  mark_for (u "postponed") = u "[ ]".
Proof.
  destruct status_mark_bijection as (_ & _ & _ & _ & Hm & Hs & Hu).
  split_and!.
  - apply Hm. decide_closed.
  - apply Hs. decide_closed.
  - apply Hu. decide_closed.
Defined.

(** ** The task pattern *)

Lemma lstrip_split (s : str) :
  ∃ ws, s = ws ++ lstrip s ∧ all_space ws.
Proof.
  induction s as [|c r IH]; simpl.
  - exists []. split; [done|constructor].
  - destruct (isspace c) eqn:Hc.
    + destruct IH as (ws & Hr & Hws). exists (c :: ws).
      split; [simpl; congruence|by constructor].
    + exists []. split; [done|constructor].
Qed.

Lemma lstrip_app_space (ws s : str) : all_space ws → lstrip (ws ++ s) = lstrip s.
Proof.
  induction 1 as [|c ws Hc _ IH]; simpl; [done|]. by rewrite Hc.
Qed.

Lemma lstrip_nonspace (c : N) (r : str) : isspace c = false → lstrip (c :: r) = c :: r.
Proof. intros H. simpl. by rewrite H. Qed.

Lemma dot_star_eol_sound (s g : str) :
  dot_star_eol s = Some g → ∃ eol, s = g ++ eol ∧ (10%N ∉ g) ∧ (eol = [] ∨ eol = [10%N]).
Proof.
  revert g. induction s as [|c r IH]; intros g; simpl.
  - intros [= <-]. exists []. split_and!; [done|apply not_elem_of_nil|by left].
  - destruct (N.eqb_spec c 10) as [->|Hc].
    + destruct r; [|done]. intros [= <-]. exists [10%N].
      split_and!; [done|apply not_elem_of_nil|by right].
    + destruct (dot_star_eol r) as [g'|]; [|done]. simpl. intros [= <-].
      destruct (IH _ eq_refl) as (eol & -> & Hg & Heol).
      exists eol. split_and!; [done| |done].
      rewrite not_elem_of_cons. split; [congruence|done].
Qed.

Lemma dot_star_eol_complete (g eol : str) :
  10%N ∉ g → eol = [] ∨ eol = [10%N] → dot_star_eol (g ++ eol) = Some g.
Proof.
  intros Hg Heol. induction g as [|c g IH]; simpl.
  - by destruct Heol as [->| ->].
  - apply not_elem_of_cons in Hg as [Hc Hg].
    destruct (N.eqb_spec c 10) as [->|_]; [done|]. by rewrite IH.
Qed.

Lemma dot_star_eol_lstrip (txt eol : str) :
  10%N ∉ txt → eol = [] ∨ eol = [10%N] → is_Some (dot_star_eol (lstrip (txt ++ eol))).
Proof.
  intros Htxt Heol. induction txt as [|c t IH].
  - destruct Heol as [->| ->]; by eexists.
  - apply not_elem_of_cons in Htxt as [Hc Ht].
    change ((c :: t) ++ eol) with (c :: (t ++ eol)). simpl lstrip.
    destruct (isspace c); [by apply IH|].
    change (c :: t ++ eol) with ((c :: t) ++ eol).
    rewrite (dot_star_eol_complete (c :: t) eol); [by eexists| |done].
    rewrite not_elem_of_cons. done.
Qed.

Lemma TASK_MARK_RE_sound (line mark g2 : str) :
  TASK_MARK_RE_match line = Some (mark, g2) →
  ∃ ws1 ws2 m ws3 eol,
    line = ws1 ++ [45%N] ++ ws2 ++ mark ++ ws3 ++ g2 ++ eol ∧ mark = [91%N; m; 93%N] ∧
    all_space ws1 ∧ all_space ws2 ∧ all_space ws3 ∧
    is_mark_char m = true ∧ (10%N ∉ g2) ∧ (eol = [] ∨ eol = [10%N]).
Proof.
  unfold TASK_MARK_RE_match.
  destruct (lstrip_split line) as (ws1 & Hline & Hws1).
  destruct (lstrip line) as [|dash r1]; [done|].
  destruct (N.eqb_spec dash 45) as [->|]; [|done].
  destruct (lstrip_split r1) as (ws2 & Hr1 & Hws2).
  destruct (lstrip r1) as [|lb [|m [|rb r2]]]; try done.
  destruct (N.eqb_spec lb 91) as [->|]; [|done].
  destruct (is_mark_char m) eqn:Hm; [|done].
  destruct (N.eqb_spec rb 93) as [->|]; [|done]. simpl.
  destruct (lstrip_split r2) as (ws3 & Hr2 & Hws3).
  destruct (dot_star_eol (lstrip r2)) as [g|] eqn:Hg; [|done].
  intros [= <- <-].
  destruct (dot_star_eol_sound _ _ Hg) as (eol & Hl & Hno & Heol).
  exists ws1, ws2, m, ws3, eol. split_and!; try done.
  rewrite Hline, Hr1, Hr2, Hl. reflexivity.
Qed.

Lemma TASK_MARK_RE_complete (line : str) :
  re_task_shape line → is_Some (TASK_MARK_RE_match line).
Proof.
  intros (ws1 & ws2 & m & ws3 & txt & eol & -> & H1 & H2 & H3 & Hm & Htxt & Heol).
  unfold TASK_MARK_RE_match.
  rewrite (lstrip_app_space ws1) by done.
  change ([45%N] ++ ?r) with (45%N :: r). rewrite lstrip_nonspace by reflexivity.
  rewrite N.eqb_refl.
  rewrite (lstrip_app_space ws2) by done.
  change ([91%N; m; 93%N] ++ ?r) with (91%N :: m :: 93%N :: r).
  rewrite lstrip_nonspace by reflexivity.
  rewrite !N.eqb_refl, Hm. simpl.
  rewrite (lstrip_app_space ws3) by done.
  destruct (dot_star_eol_lstrip txt eol Htxt Heol) as [g ->]. by eexists.
Qed.

Lemma TASK_MARK_RE_shape (line : str) :
  is_Some (TASK_MARK_RE_match line) ↔ re_task_shape line.
Proof.
  split; [|apply TASK_MARK_RE_complete].
  intros [[mark g2] H].
  destruct (TASK_MARK_RE_sound _ _ _ H)
    as (ws1 & ws2 & m & ws3 & eol & -> & -> & Ha & Hb & Hc & Hd & He & Hf).
  exists ws1, ws2, m, ws3, g2, eol. split_and!; done.
Qed.

Lemma re_task_shape_no_lf (line : str) :
  10%N ∉ line → re_task_shape line ↔ task_shape line.
Proof.
  intros Hlf. split.
  - intros (ws1 & ws2 & m & ws3 & txt & eol & -> & H1 & H2 & H3 & Hm & Htxt & Heol).
    destruct Heol as [->| ->].
    + exists ws1, ws2, m, ws3, txt. rewrite app_nil_r. done.
    + exfalso. apply Hlf. rewrite !elem_of_app. do 6 right. apply list_elem_of_here.
  - intros (ws1 & ws2 & m & ws3 & txt & -> & H1 & H2 & H3 & Hm).
    exists ws1, ws2, m, ws3, txt, []. rewrite app_nil_r.
    split_and!; try done; [|by left].
    intros Hin. apply Hlf. rewrite !elem_of_app. do 5 right. done.
Qed.

Lemma H3_not_task (line : str) : H3_RE_match line = true → TASK_MARK_RE_match line = None.
Proof.
  destruct line as [|h1 rest]; [done|]. simpl.
  destruct rest as [|h2 [|h3 [|c r]]]; try done.
  destruct (N.eqb_spec h1 35) as [->|]; [|done]. intros _.
  reflexivity.
Qed.




Lemma not_spec_shape_unspaced : ¬ spec_task_shape (u "-[x]跑步").
Proof.
  intros (ws1 & ws2 & m & ws3 & txt & Heq & H1 & H2 & Hne & _).
  vm_compute in Heq.
  destruct ws1 as [|c ws1].
  - simpl in Heq. injection Heq as Heq.
    destruct ws2 as [|c ws2]; [done|].
    simpl in Heq. injection Heq as <- _.
    apply Forall_cons in H2 as [H2 _]. vm_compute in H2. done.
  - simpl in Heq. injection Heq as <- _.
    apply Forall_cons in H1 as [H1 _]. vm_compute in H1. done.
Qed.

(** ** Sections *)

Lemma parse_sections_loop_spec (n : Z) (rest : list str) :
  ∀ (i : Z) (current : option Section_) (sections : list Section_),
  (∀ c, current = Some c → end_ c = n - 1) →
  (let '(cur, secs) := parse_sections_loop n rest i current sections in
   match cur with Some c => secs ++ [c] | None => secs end)
  = sections ++ close n (match current with
                         | Some c => [(title c, start c)]
                         | None => []
                         end ++ heads i rest).
Proof.
  induction rest as [|l r IH]; intros i current sections Hend.
  - simpl. destruct current as [[t s e]|]; simpl.
    + specialize (Hend _ eq_refl). simpl in Hend. subst e. reflexivity.
    + by rewrite app_nil_r.
  - simpl. destruct (H2_RE_match l).
    + rewrite IH by (intros c [= <-]; reflexivity).
      destruct current as [c|]; simpl.
      * rewrite <- app_assoc. reflexivity.
      * reflexivity.
    + apply IH, Hend.
Qed.

Lemma parse_sections_close (lines : list str) :
  _parse_sections lines = close (len lines) (heads 0 lines).
Proof.
  unfold _parse_sections.
  pose proof (parse_sections_loop_spec (len lines) lines 0 None []) as H.
  destruct (parse_sections_loop (len lines) lines 0 None []) as [cur secs].
  apply H. intros c [=].
Qed.

Lemma heads_range (rest : list str) (i : Z) :
  Forall (λ h, i ≤ h.2 < i + len rest) (heads i rest).
Proof.
  revert i. induction rest as [|l r IH]; intros i; simpl; [constructor|].
  assert (Forall (λ h, i ≤ h.2 < i + len (l :: r)) (heads (i + 1) r)) as Htl.
  { eapply Forall_impl; [apply IH|]. unfold len. simpl. intros h ?. lia. }
  destruct (H2_RE_match l); [|exact Htl].
  constructor; [|exact Htl]. unfold len. simpl. lia.
Qed.

Lemma heads_sorted (rest : list str) (i : Z) : StronglySorted before (heads i rest).
Proof.
  revert i. induction rest as [|l r IH]; intros i; simpl; [constructor|].
  destruct (H2_RE_match l); [|apply IH].
  constructor; [apply IH|].
  eapply Forall_impl; [apply heads_range|]. unfold before. simpl. intros h ?. lia.
Qed.

Lemma heads_sound (rest : list str) (i : Z) (t : str) (j : Z) :
  (t, j) ∈ heads i rest →
  ∃ l, rest !! Z.to_nat (j - i) = Some l ∧ i ≤ j ∧ H2_RE_match l = true ∧ t = heading_title l.
Proof.
  revert i. induction rest as [|l r IH]; intros i; simpl; [by intros ?%elem_of_nil|].
  intros Hin.
  assert ((t, j) ∈ heads (i + 1) r →
          ∃ l0, (l :: r) !! Z.to_nat (j - i) = Some l0 ∧ i ≤ j ∧ H2_RE_match l0 = true
                ∧ t = heading_title l0) as Htl.
  { intros H. destruct (IH _ H) as (l0 & Hl0 & Hij & Hm & Ht).
    exists l0. split_and!; [|lia|done|done].
    replace (Z.to_nat (j - i)) with (S (Z.to_nat (j - (i + 1)))) by lia. exact Hl0. }
  destruct (H2_RE_match l) eqn:Hl; [|by apply Htl].
  apply elem_of_cons in Hin as [[= -> ->]|Hin]; [|by apply Htl].
  exists l. rewrite Z.sub_diag. split_and!; [done|lia|done|done].
Qed.

Lemma heads_complete (rest : list str) (i : Z) (k : nat) (l : str) :
  rest !! k = Some l → H2_RE_match l = true →
  (heading_title l, i + Z.of_nat k) ∈ heads i rest.
Proof.
  revert i k. induction rest as [|l0 r IH]; intros i k; [done|].
  destruct k as [|k]; simpl.
  - intros [= ->] ->. rewrite Z.add_0_r. apply list_elem_of_here.
  - intros Hk Hl. specialize (IH (i + 1) k Hk Hl).
    replace (i + Z.of_nat (S k)) with (i + 1 + Z.of_nat k) by lia.
    destruct (H2_RE_match l0); [apply list_elem_of_further|]; exact IH.
Qed.

Lemma close_starts (n : Z) (hs : list (str * Z)) (s : Section_) :
  s ∈ close n hs → (title s, start s) ∈ hs.
Proof.
  induction hs as [|[t i] tl IH]; simpl; [by intros ?%elem_of_nil|].
  intros [->|Hin]%elem_of_cons; [apply list_elem_of_here|].
  apply list_elem_of_further, IH, Hin.
Qed.

Lemma close_complete (n : Z) (hs : list (str * Z)) (t : str) (i : Z) :
  (t, i) ∈ hs → ∃ s, s ∈ close n hs ∧ title s = t ∧ start s = i.
Proof.
  induction hs as [|[t0 i0] tl IH]; simpl; [by intros ?%elem_of_nil|].
  intros [[= -> ->]|Hin]%elem_of_cons.
  - eexists. split; [apply list_elem_of_here|done].
  - destruct (IH Hin) as (s & Hs & ?). exists s. split; [by apply list_elem_of_further|done].
Qed.

Lemma close_bounds (n lo : Z) (hs : list (str * Z)) :
  StronglySorted before hs → Forall (λ h, lo ≤ h.2 < n) hs →
  Forall (λ s, lo ≤ start s ≤ end_ s ∧ end_ s < n) (close n hs).
Proof.
  induction hs as [|[t i] tl IH]; simpl; [constructor|].
  intros [Hs Hlt]%StronglySorted_inv [Hi Hall]%Forall_cons. simpl in Hi.
  constructor; [|by apply IH].
  simpl. destruct tl as [|[t' j] tl']; [lia|].
  apply Forall_cons in Hlt as [Hij _]. apply Forall_cons in Hall as [Hj _].
  unfold before in Hij. simpl in *. lia.
Qed.

Lemma close_adjacent (n : Z) (hs : list (str * Z)) (k : nat) (a b : Section_) :
  close n hs !! k = Some a → close n hs !! S k = Some b → end_ a + 1 = start b.
Proof.
  revert k. induction hs as [|[t i] tl IH]; intros k; simpl; [done|].
  destruct k as [|k]; simpl.
  - intros [= <-]. destruct tl as [|[t' j] tl']; simpl; [done|].
    intros [= <-]. simpl. lia.
  - apply IH.
Qed.

Lemma close_last (n : Z) (hs : list (str * Z)) (s : Section_) :
  last (close n hs) = Some s → end_ s = n - 1.
Proof.
  induction hs as [|[t i] tl IH]; simpl; [done|].
  destruct tl as [|[t' j] tl']; simpl in *.
  - by intros [= <-].
  - exact IH.
Qed.

Lemma close_sorted (n : Z) (hs : list (str * Z)) :
  StronglySorted before hs → Forall (λ h, h.2 < n) hs →
  StronglySorted (λ a b, end_ a < start b) (close n hs).
Proof.
  induction hs as [|[t i] tl IH]; simpl; [constructor|].
  intros [Hs Hlt]%StronglySorted_inv [Hi Hall]%Forall_cons.
  constructor; [by apply IH|].
  apply Forall_forall. intros b Hb. simpl.
  apply close_starts in Hb.
  destruct tl as [|[t' j] tl']; [by apply elem_of_nil in Hb|].
  apply Forall_cons in Hlt as [Hij _]. unfold before in Hij. simpl in Hij.
  apply elem_of_cons in Hb as [Hb|Hb].
  - injection Hb as _ ->. lia.
  - apply StronglySorted_inv in Hs as [_ Hj].
    rewrite Forall_forall in Hj. specialize (Hj _ Hb). unfold before in Hj. simpl in Hj. lia.
Qed.

Lemma parse_sections_elem (lines : list str) (s : Section_) :
  s ∈ _parse_sections lines →
  0 ≤ start s ≤ end_ s ∧ end_ s < len lines ∧
  ∃ l, py_getitem lines (start s) = Some l ∧ H2_RE_match l = true ∧ title s = heading_title l.
Proof.
  rewrite parse_sections_close. intros Hs.
  pose proof (close_bounds (len lines) 0 _ (heads_sorted lines 0) (heads_range lines 0)) as Hb.
  rewrite Forall_forall in Hb. destruct (Hb _ Hs) as [Hse Hn].
  split; [exact Hse|]. split; [exact Hn|].
  apply close_starts, heads_sound in Hs as (l & Hl & _ & Hm & Ht).
  exists l. rewrite py_getitem_nonneg by lia. rewrite Z.sub_0_r in Hl. done.
Qed.

(** C9: the sections of any document are ordered, disjoint and
    contiguous.  Every section starts at a [##] heading and every such
    heading starts a section; a section ends one line before the next
    section's heading, the last one at the last line of the file; and a
    line that has no [##] heading at or above it lies in no section. *)
Theorem parse_sections_partition (lines : list str) :
  let secs := _parse_sections lines in
  (∀ s, s ∈ secs →
     0 ≤ start s ≤ end_ s ∧ end_ s < len lines ∧
     ∃ l, py_getitem lines (start s) = Some l ∧ H2_RE_match l = true
          ∧ title s = heading_title l) ∧
  (∀ i l, 0 ≤ i → py_getitem lines i = Some l → H2_RE_match l = true →
     ∃ s, s ∈ secs ∧ start s = i) ∧
  (∀ k a b, secs !! k = Some a → secs !! S k = Some b → end_ a + 1 = start b) ∧
  (∀ s, last secs = Some s → end_ s = len lines - 1) ∧
  StronglySorted (λ a b, end_ a < start b) secs ∧
  (∀ i, (∀ j l, 0 ≤ j ≤ i → py_getitem lines j = Some l → H2_RE_match l = false) →
     ∀ s, s ∈ secs → ¬ (start s ≤ i ≤ end_ s)).
Proof.
  intros secs. split_and!.
  - apply parse_sections_elem.
  - intros i l Hi Hl Hm. rewrite py_getitem_nonneg in Hl by done.
    pose proof (heads_complete lines 0 _ _ Hl Hm) as Hin.
    destruct (close_complete (len lines) _ _ _ Hin) as (s & Hs & _ & Hst).
    exists s. subst secs. rewrite parse_sections_close. split; [done|lia].
  - subst secs. rewrite parse_sections_close. apply close_adjacent.
  - subst secs. rewrite parse_sections_close. apply close_last.
  - subst secs. rewrite parse_sections_close.
    apply close_sorted; [apply heads_sorted|].
    eapply Forall_impl; [apply (heads_range lines 0)|]. simpl. intros h ?. lia.
  - intros i Hno s Hs [Hlo Hhi].
    destruct (parse_sections_elem lines s Hs) as (Hse & _ & l & Hl & Hm & _).
    rewrite (Hno (start s) l) in Hm; [done|lia|done].
Qed.

Lemma parse_sections_partition_witness :
  Forall (λ s, ¬ (start s ≤ 0 ≤ end_ s))
    (_parse_sections [u "- [ ] 早起"; u "## 🎯 今日重点任务"; u "- [ ] 阅读"]).
Proof.
  apply Forall_forall.
  apply (parse_sections_partition [u "- [ ] 早起"; u "## 🎯 今日重点任务"; u "- [ ] 阅读"]).
  intros j l Hj Hl. assert (j = 0) as -> by lia.
  vm_compute in Hl. injection Hl as <-. vm_compute. reflexivity.
Defined.

Lemma section_range_Some (lines : list str) (prefix : str) (s e : Z) :
  _section_range lines prefix = Some (s, e) →
  ∃ sec, sec ∈ _parse_sections lines ∧ start sec = s ∧ end_ sec = e ∧
         startswith (title sec) prefix = true.
Proof.
  unfold _section_range.
  destruct (find _ (_parse_sections lines)) as [sec|] eqn:Hf; [|done].
  simpl. intros [= <- <-]. apply find_some in Hf as [Hin Hp].
  exists sec. split; [by apply list_elem_of_In|done].
Qed.

Lemma section_range_bounds (lines : list str) (prefix : str) (s e : Z) :
  _section_range lines prefix = Some (s, e) → 0 ≤ s ≤ e ∧ e < len lines.
Proof.
  intros (sec & Hin & <- & <- & _)%section_range_Some.
  destruct (parse_sections_elem lines sec Hin) as (? & ? & _). done.
Qed.


Lemma section_range_None (lines : list str) (prefix : str) :
  _section_range lines prefix = None ↔
  Forall (λ s, startswith (title s) prefix = false) (_parse_sections lines).
Proof.
  unfold _section_range.
  induction (_parse_sections lines) as [|s l IH]; simpl.
  - split; [constructor|done].
  - destruct (startswith (title s) prefix) eqn:Hs; simpl.
    + split; [done|]. intros [? _]%Forall_cons. congruence.
    + rewrite IH. split; [by constructor|]. by intros [_ ?]%Forall_cons.
Qed.

(** ** The task scanner *)

Lemma iter_tasks_loop_spec (lines : list str) (parent : str) (idxs : list Z) :
  ∀ (sub : option str) (results : list TaskItem),
  Forall (λ idx, 0 ≤ idx < len lines) idxs →
  ∃ new, iter_tasks_loop lines parent idxs sub results = inr (results ++ new) ∧
         task_core <$> new = omap (core_at lines) idxs ∧
         Forall (item_ok lines parent) new.
Proof.
  induction idxs as [|idx rest IH]; intros sub results Hall.
  - exists []. simpl. rewrite app_nil_r. split_and!; [done|done|constructor].
  - apply Forall_cons in Hall as [Hidx Hall]. simpl.
    assert (is_Some (lines !! Z.to_nat idx)) as [line Hline].
    { apply lookup_lt_is_Some. unfold len in Hidx. lia. }
    assert (py_getitem lines idx = Some line) as Hget.
    { rewrite py_getitem_nonneg by lia. done. }
    rewrite Hget. unfold core_at at 1. rewrite Hline. simpl.
    destruct (H3_RE_match line) eqn:H3.
    + rewrite (H3_not_task _ H3). simpl. apply IH, Hall.
    + destruct (TASK_MARK_RE_match line) as [[mark g2]|] eqn:Hm; simpl.
      * edestruct IH as (new & -> & Hcore & Hok); [exact Hall|].
        eexists (_ :: new). rewrite <- app_assoc. split_and!; [done| |].
        -- rewrite fmap_cons, Hcore. reflexivity.
        -- constructor; [|done]. exists g2. simpl. done.
      * apply IH, Hall.
Qed.

Lemma iter_tasks_spec (lines : list str) (start end_ : Z) (parent : str) :
  0 ≤ start → end_ < len lines →
  ∃ items, _iter_tasks lines start end_ parent = inr items ∧
           task_core <$> items = omap (core_at lines) (range start (end_ + 1)) ∧
           Forall (item_ok lines parent) items.
Proof.
  intros Hs He. unfold _iter_tasks.
  destruct (iter_tasks_loop_spec lines parent (range start (end_ + 1)) None [])
    as (new & Hrun & Hcore & Hok).
  { apply range_bounds; lia. }
  exists new. done.
Qed.

Lemma core_at_is_Some (lines : list str) (idx : Z) :
  0 ≤ idx →
  is_Some (core_at lines idx) ↔ ∃ l, py_getitem lines idx = Some l ∧ re_task_shape l.
Proof.
  intros Hidx. rewrite py_getitem_nonneg by done. unfold core_at.
  destruct (lines !! Z.to_nat idx) as [l|]; simpl.
  - destruct (TASK_MARK_RE_match l) as [[mark g2]|] eqn:Hm; simpl.
    + split; [intros _|by eexists].
      exists l. split; [done|]. apply TASK_MARK_RE_shape. rewrite Hm. by eexists.
    + split; [by intros [? ?]|]. intros (l' & [= <-] & Hs).
      apply TASK_MARK_RE_shape in Hs. rewrite Hm in Hs. by destruct Hs.
  - split; [by intros [? ?]|]. by intros (l' & ? & _).
Qed.

Lemma core_at_index (lines : list str) (idx : Z) (c : Z * str * str) :
  core_at lines idx = Some c → c.1.1 = idx.
Proof.
  unfold core_at. destruct (lines !! Z.to_nat idx) as [l|]; [|done]. simpl.
  destruct (TASK_MARK_RE_match l) as [[mark g2]|]; [|done]. simpl. by intros [= <-].
Qed.







(** C4, as the code has it: a line is recognised as a task exactly when
    it is optional whitespace, a dash, optional whitespace, a bracket
    holding one of the six marks (either case), optional whitespace and
    free text to the end of the line ([re_task_shape] for any string,
    [task_shape] for a string without LF, as every line of a document
    is); the scanner yields an item for exactly those lines of the range
    it is given, and every item records its line, the matched mark and
    the stripped text. *)
Theorem task_scanner_recognizes (lines : list str) (start end_ : Z) (parent : str) :
  0 ≤ start → end_ < len lines →
  (∀ line, is_Some (TASK_MARK_RE_match line) ↔ re_task_shape line) ∧
  (∀ line, 10%N ∉ line → is_Some (TASK_MARK_RE_match line) ↔ task_shape line) ∧
  ∃ items, _iter_tasks lines start end_ parent = inr items ∧
    Forall (item_ok lines parent) items ∧
    ∀ idx, (∃ t, t ∈ items ∧ line_index t = idx) ↔
           (start ≤ idx ≤ end_ ∧ ∃ l, py_getitem lines idx = Some l ∧ re_task_shape l).
Proof.
  intros Hs He. split; [apply TASK_MARK_RE_shape|].
  split; [intros line Hlf; by rewrite TASK_MARK_RE_shape, re_task_shape_no_lf|].
  destruct (iter_tasks_spec lines start end_ parent Hs He) as (items & Hrun & Hcore & Hok).
  exists items. split_and!; [done|done|].
  intros idx. split.
  - intros (t & Ht & <-).
    assert (task_core t ∈ task_core <$> items) as Hin by (by apply list_elem_of_fmap_2).
    rewrite Hcore in Hin. apply list_elem_of_omap in Hin as (j & Hj & Hc).
    pose proof (core_at_index _ _ _ Hc) as Hidx. simpl in Hidx. subst j.
    unfold range in Hj. apply elem_of_seqZ in Hj.
    split; [lia|]. apply core_at_is_Some; [lia|by eexists].
  - intros (Hidx & Hl). apply core_at_is_Some in Hl as [c Hc]; [|lia].
    assert (c ∈ task_core <$> items) as Hin.
    { rewrite Hcore. apply list_elem_of_omap. exists idx. split; [|done].
      unfold range. apply elem_of_seqZ. lia. }
    apply list_elem_of_fmap in Hin as (t & -> & Ht).
    exists t. split; [done|]. by apply core_at_index in Hc.
Qed.

Lemma task_scanner_recognizes_witness :
  ∃ items, _iter_tasks [u "## 🎯 今日重点任务"; u "- [ ] 阅读"; u "- [y] 跑步"] 0 2 (u "🎯")
           = inr items ∧ Forall (item_ok [u "## 🎯 今日重点任务"; u "- [ ] 阅读"; u "- [y] 跑步"] (u "🎯")) items.
Proof.
  destruct (task_scanner_recognizes
              [u "## 🎯 今日重点任务"; u "- [ ] 阅读"; u "- [y] 跑步"] 0 2 (u "🎯"))
    as (_ & _ & items & Hrun & Hok & _).
  - lia.
  - vm_compute. reflexivity.
  - exists items. split; assumption.
Defined.

(** C4, as worded, fails: a line without whitespace after the dash and
    after the bracket is recognised as a task by the pattern and by the
    scanner, though it is not of the worded shape. *)
Lemma unspaced_task_line_recognized :
  is_Some (TASK_MARK_RE_match (u "-[x]跑步")) ∧
  (∃ t, _iter_tasks [u "-[x]跑步"] 0 0 [] = inr [t] ∧ line_index t = 0 ∧ text t = u "跑步") ∧
  ¬ spec_task_shape (u "-[x]跑步").
Proof.
  split_and!.
  - vm_compute. by eexists.
  - eexists. split_and!; [vm_compute; reflexivity|reflexivity|reflexivity].
  - apply not_spec_shape_unspaced.
Qed.

(** ** The loops of the operations *)

Lemma find_task_line_loop_spec (rest : list str) (txt : str) :
  ∀ i, match find_task_line_loop rest i txt with
       | None => ∀ l, l ∈ rest → ¬ task_with_text txt l
       | Some idx =>
         ∃ (k : nat) l mark g2,
           idx = i + Z.of_nat k ∧ rest !! k = Some l ∧
           TASK_MARK_RE_match l = Some (mark, g2) ∧ strip g2 = txt ∧
           ∀ (j : nat) l', (j < k)%nat → rest !! j = Some l' → ¬ task_with_text txt l'
       end.
Proof.
  induction rest as [|line r IH]; intros i; simpl.
  - intros l Hl. by apply elem_of_nil in Hl.
  - assert (¬ task_with_text txt line →
            match find_task_line_loop r (i + 1) txt with
            | None => ∀ l, l ∈ line :: r → ¬ task_with_text txt l
            | Some idx =>
              ∃ (k : nat) l mark g2,
                idx = i + Z.of_nat k ∧ (line :: r) !! k = Some l ∧
                TASK_MARK_RE_match l = Some (mark, g2) ∧ strip g2 = txt ∧
                ∀ (j : nat) l', (j < k)%nat → (line :: r) !! j = Some l' →
                                ¬ task_with_text txt l'
            end) as Hskip.
    { intros Hno. specialize (IH (i + 1)).
      destruct (find_task_line_loop r (i + 1) txt) as [idx|].
      - destruct IH as (k & l & mark & g2 & -> & Hk & Hm & Ht & Hfirst).
        exists (S k), l, mark, g2. split_and!; [lia|done|done|done|].
        intros [|j] l' Hj; simpl; [by intros [= <-]|].
        apply Hfirst. lia.
      - intros l [->|Hl]%elem_of_cons; [done|by apply IH]. }
    destruct (TASK_MARK_RE_match line) as [[mark g2]|] eqn:Hm.
    + case_bool_decide as Ht.
      * exists 0%nat, line, mark, g2. split_and!; [lia|done|done|done|].
        intros j l' Hj. lia.
      * apply Hskip. intros (mark' & g2' & Hm' & Ht'). congruence.
    + apply Hskip. intros (mark' & g2' & Hm' & Ht'). congruence.
Qed.

Lemma find_task_line_none (lines : list str) (txt : str) :
  (∀ l, l ∈ lines → ¬ task_with_text txt l) → _find_task_line lines txt = None.
Proof.
  intros Hno. unfold _find_task_line.
  pose proof (find_task_line_loop_spec lines txt 0) as H.
  destruct (find_task_line_loop lines 0 txt) as [idx|]; [|done].
  destruct H as (k & l & mark & g2 & _ & Hk & Hm & Ht & _).
  exfalso. apply (Hno l); [by eapply list_elem_of_lookup_2|]. by exists mark, g2.
Qed.

Lemma find_task_line_first (lines : list str) (txt : str) (k : nat) (l : str) :
  lines !! k = Some l → task_with_text txt l →
  (∀ (j : nat) l', (j < k)%nat → lines !! j = Some l' → ¬ task_with_text txt l') →
  _find_task_line lines txt = Some (Z.of_nat k).
Proof.
  intros Hk Hl Hfirst. unfold _find_task_line.
  pose proof (find_task_line_loop_spec lines txt 0) as H.
  destruct (find_task_line_loop lines 0 txt) as [idx|].
  - destruct H as (k' & l' & mark & g2 & -> & Hk' & Hm & Ht & Hfirst').
    f_equal. destruct (Nat.lt_trichotomy k k') as [Hlt|[->|Hgt]]; [|lia|].
    + exfalso. by apply (Hfirst' k l).
    + exfalso. apply (Hfirst k' l'); [done|done|]. by exists mark, g2.
  - exfalso. apply (H l); [by eapply list_elem_of_lookup_2|done].
Qed.

Lemma find_task_line_at_most (lines : list str) (i : nat) (l mark g2 : str) :
  lines !! i = Some l → TASK_MARK_RE_match l = Some (mark, g2) →
  ∃ (j : nat) lj mj gj,
    (j ≤ i)%nat ∧ lines !! j = Some lj ∧ TASK_MARK_RE_match lj = Some (mj, gj) ∧
    strip gj = strip g2 ∧
    (∀ (j' : nat) l', (j' < j)%nat → lines !! j' = Some l' → ¬ task_with_text (strip g2) l') ∧
    _find_task_line lines (strip g2) = Some (Z.of_nat j).
Proof.
  intros Hi Hm. unfold _find_task_line.
  pose proof (find_task_line_loop_spec lines (strip g2) 0) as H.
  destruct (find_task_line_loop lines 0 (strip g2)) as [idx|].
  - destruct H as (k & lk & mk & gk & -> & Hk & Hmk & Hgk & Hfirst).
    exists k, lk, mk, gk. split_and!; [|done|done|done|done|f_equal; lia].
    destruct (decide (k ≤ i)%nat) as [|Hgt]; [done|]. exfalso.
    apply (Hfirst i l); [lia|done|]. by exists mark, g2.
  - exfalso. apply (H l); [by eapply list_elem_of_lookup_2|]. by exists mark, g2.
Qed.

Lemma scan_back_spec (lines : list str) (b d : Z) (n : nat) :
  0 ≤ b → b + Z.of_nat n < len lines →
  ∃ k, scan_back lines (range_down (b + Z.of_nat n) b) d = inr k ∧
    ((k = d ∧ ∀ j l, b < j ≤ b + Z.of_nat n → py_getitem lines j = Some l → blank l) ∨
     (∃ l, b < k - 1 ≤ b + Z.of_nat n ∧ py_getitem lines (k - 1) = Some l ∧ ¬ blank l ∧
           ∀ j l', k - 1 < j ≤ b + Z.of_nat n → py_getitem lines j = Some l' → blank l')).
Proof.
  intros Hb. induction n as [|n IH]; intros Hn.
  - rewrite Z.add_0_r, range_down_nil. exists d. split; [done|]. left. split; [done|].
    intros j l Hj. lia.
  - rewrite range_down_S. cbn [scan_back].
    assert (is_Some (lines !! Z.to_nat (b + Z.of_nat (S n)))) as [l Hl].
    { apply lookup_lt_is_Some. unfold len in Hn. lia. }
    assert (py_getitem lines (b + Z.of_nat (S n)) = Some l) as Hget.
    { rewrite py_getitem_nonneg by lia. done. }
    rewrite Hget. case_bool_decide as Hblank.
    + exists (b + Z.of_nat (S n) + 1). split; [done|]. right. exists l.
      replace (b + Z.of_nat (S n) + 1 - 1) with (b + Z.of_nat (S n)) by lia.
      split_and!; [lia|lia|done|done|]. intros j l' Hj. lia.
    + destruct IH as (k & Hk & Hcase); [lia|]. exists k. split; [done|].
      assert (∀ j l', b + Z.of_nat n < j ≤ b + Z.of_nat (S n) →
                      py_getitem lines j = Some l' → blank l') as Hlast.
      { intros j l' Hj Hl'. assert (j = b + Z.of_nat (S n)) as -> by lia. congruence. }
      destruct Hcase as [[-> Hall]|(l0 & Hk1 & Hl0 & Hnb & Hall)].
      * left. split; [done|]. intros j l' Hj Hl'.
        destruct (decide (j ≤ b + Z.of_nat n)); [apply (Hall j); [lia|done]|].
        apply (Hlast j); [lia|done].
      * right. exists l0. split_and!; [lia|lia|done|done|]. intros j l' Hj Hl'.
        destruct (decide (j ≤ b + Z.of_nat n)); [apply (Hall j); [lia|done]|].
        apply (Hlast j); [lia|done].
Qed.

Lemma scan_back_section (lines : list str) (prefix : str) (s e : Z) :
  _section_range lines prefix = Some (s, e) →
  ∃ k : nat, scan_back lines (range_down e s) e = inr (Z.of_nat k) ∧
             insertion_point lines s e (Z.of_nat k) ∧ (k ≤ length lines)%nat.
Proof.
  intros (Hse & He)%section_range_bounds.
  destruct (scan_back_spec lines s e (Z.to_nat (e - s))) as (k & Hk & Hcase); [lia|lia|].
  replace (s + Z.of_nat (Z.to_nat (e - s))) with e in * by lia.
  unfold len in He.
  exists (Z.to_nat k).
  assert (0 ≤ k ≤ Z.of_nat (length lines)) as Hrange.
  { destruct Hcase as [[-> _]|(l & ? & _)]; lia. }
  rewrite Z2Nat.id by lia. split_and!; [done|exact Hcase|lia].
Qed.











(** ** Running the monad *)

Lemma bind_run {A B} (m : M A) (k : A → M B) (σ : fs) :
  (m ≫= k) σ = match m σ with
               | (inl e, σ') => (inl e, σ')
               | (inr a, σ') => k a σ'
               end.
Proof. reflexivity. Qed.

Lemma bind_ret_run {A B} (a : A) (k : A → M B) (σ : fs) : (mret a ≫= k) σ = k a σ.
Proof. reflexivity. Qed.

Lemma lift_run {A} (r : exn + A) (σ : fs) : lift r σ = (r, σ).
Proof. reflexivity. Qed.

Lemma path_exists_run (p : str) (σ : fs) :
  path_exists p σ = (inr (bool_decide (is_Some (σ !! p))), σ).
Proof. reflexivity. Qed.

Lemma get_today_path_run (e : env) (σ : fs) :
  ∃ date, get_today_path e σ =
    (inr (mkTodayInfo date (day_path e (today_ymd e))
            (bool_decide (is_Some (σ !! day_path e (today_ymd e))))), σ).
Proof.
  unfold get_today_path. destruct (today_ymd e) as [[y m] d] eqn:E.
  eexists. rewrite bind_run, path_exists_run. reflexivity.
Qed.

Lemma resolve_info_run (e : env) (path : option str) (σ : fs) :
  let p := default (day_path e (today_ymd e)) path in
  resolve_info e path σ = (inr (p, bool_decide (is_Some (σ !! p))), σ).
Proof.
  destruct path as [p|]; simpl.
  - reflexivity.
  - unfold resolve_info. rewrite bind_run.
    destruct (get_today_path_run e σ) as [date ->]. reflexivity.
Qed.

Lemma load_run (p : str) (σ : fs) (c : str) :
  σ !! p = Some c → _load_file_lines p σ = (inr (splitlines (universal_newlines c)), σ).
Proof.
  intros H. unfold _load_file_lines. rewrite bind_run. unfold read_text. rewrite H.
  reflexivity.
Qed.

Lemma save_run (p : str) (lines : list str) (σ : fs) :
  _save_file_lines p lines σ = (inr (), <[p := join LF lines ++ LF]> σ).
Proof. reflexivity. Qed.

(** ** The operations on an existing document

    Throughout this section the file at the resolved path exists with
    content [c], and [lines] are its lines as [_load_file_lines] returns
    them. *)

Section existing_document.

Context (e : env) (path : option str) (σ : fs) (c : str).

Let p : str := default (day_path e (today_ymd e)) path.
Let lines : list str := splitlines (universal_newlines c).

Hypothesis Hc : σ !! p = Some c.

Lemma resolve_existing : resolve_info e path σ = (inr (p, true), σ).
Proof.
  pose proof (resolve_info_run e path σ) as H. cbv zeta in H. fold p in H.
  rewrite H, Hc. by rewrite bool_decide_eq_true_2 by eauto.
Qed.

Lemma load_existing : _load_file_lines p σ = (inr lines, σ).
Proof. exact (load_run p σ c Hc). Qed.

(** Every operation starts by resolving the path and loading the lines. *)
Ltac open_document :=
  rewrite bind_run, resolve_existing; cbn [negb];
  rewrite bind_run, load_existing.


Lemma set_task_status_run (task_text status : str) (k : nat) (l mark g2 : str) :
  lines !! k = Some l → TASK_MARK_RE_match l = Some (mark, g2) → strip g2 = task_text →
  (∀ (j : nat) l', (j < k)%nat → lines !! j = Some l' → ¬ task_with_text task_text l') →
  set_task_status e task_text status path σ =
    (inr [ ("updated"%string, VBool true); ("line"%string, VInt (Z.of_nat k));
           ("new_status"%string, VStr status) ],
     <[p := join LF (<[k := u "- " ++ mark_for status ++ u " " ++ g2]> lines) ++ LF]> σ).
Proof.
  intros Hk Hm Ht Hfirst. unfold set_task_status. open_document.
  rewrite (find_task_line_first lines task_text k l Hk) by (done || by exists mark, g2).
  rewrite bind_run, lift_run, py_getitem_nonneg, Nat2Z.id, Hk by lia.
  cbn [from_option]. rewrite bind_run, lift_run, Hm. cbn [from_option].
  rewrite bind_run, lift_run, py_setitem_nonneg by (by eapply lookup_lt_Some).
  cbn [from_option]. rewrite bind_run, save_run. reflexivity.
Qed.

Lemma set_task_status_no_task (task_text status : str) :
  (∀ l, l ∈ lines → ¬ task_with_text task_text l) →
  set_task_status e task_text status path σ =
    (inr [ ("updated"%string, VBool false);
           ("error"%string, VStr (u "task_not_found")) ], σ).
Proof.
  intros Hno. unfold set_task_status. open_document.
  rewrite (find_task_line_none _ _ Hno). reflexivity.
Qed.

Lemma add_task_run (prefix task_text status : str) (s en : Z) :
  _section_range lines prefix = Some (s, en) →
  ∃ k : nat, insertion_point lines s en (Z.of_nat k) ∧ (k ≤ length lines)%nat ∧
    add_task e prefix task_text status path σ =
      (inr [("inserted"%string, VBool true); ("line"%string, VInt (Z.of_nat k))],
       <[p := join LF (take k lines ++ (u "- " ++ mark_for status ++ u " " ++ task_text)
                         :: drop k lines) ++ LF]> σ).
Proof.
  intros Hrng.
  destruct (scan_back_section lines prefix s en Hrng) as (k & Hscan & Hpt & Hk).
  exists k. split_and!; [done|done|].
  unfold add_task. open_document. rewrite Hrng.
  rewrite bind_run, lift_run, Hscan, bind_run, save_run, py_insert_nat by done.
  reflexivity.
Qed.

Lemma append_note_run (prefix note_line : str) (s en : Z) :
  _section_range lines prefix = Some (s, en) →
  ∃ k : nat, insertion_point lines s en (Z.of_nat k) ∧ (k ≤ length lines)%nat ∧
    append_note e prefix note_line path σ =
      (inr [("appended"%string, VBool true); ("line"%string, VInt (Z.of_nat k))],
       <[p := join LF (take k lines ++ (u "- " ++ note_line) :: drop k lines) ++ LF]> σ).
Proof.
  intros Hrng.
  destruct (scan_back_section lines prefix s en Hrng) as (k & Hscan & Hpt & Hk).
  exists k. split_and!; [done|done|].
  unfold append_note. open_document. rewrite Hrng.
  rewrite bind_run, lift_run, Hscan, bind_run, save_run, py_insert_nat by done.
  reflexivity.
Qed.

Lemma section_not_found_run (prefix task_text status note_line : str) :
  _section_range lines prefix = None →
  add_task e prefix task_text status path σ =
    (inr [("inserted"%string, VBool false);
          ("error"%string, VStr (u "section_not_found"))], σ) ∧
  append_note e prefix note_line path σ =
    (inr [("appended"%string, VBool false);
          ("error"%string, VStr (u "section_not_found"))], σ).
Proof.
  intros Hrng. split.
  - unfold add_task. open_document. by rewrite Hrng.
  - unfold append_note. open_document. by rewrite Hrng.
Qed.


End existing_document.

(** ** Bootstrap *)

(** C8: when today's file exists, [create_today_from_template] with
    [force = False] answers [created = False], [reason = 'exists'] and
    leaves the store, hence the file's content, as it was. *)
Theorem create_existing_is_noop (e : env) (σ : fs) (c : str) :
  σ !! day_path e (today_ymd e) = Some c →
  create_today_from_template e false σ =
    (inr [ ("created"%string, VBool false);
           ("path"%string, VStr (day_path e (today_ymd e)));
           ("reason"%string, VStr (u "exists")) ], σ).
Proof.
  intros Hc. unfold create_today_from_template.
  rewrite bind_run. destruct (get_today_path_run e σ) as [date ->].
  cbn [info_path]. rewrite bind_run, path_exists_run, Hc.
  rewrite bool_decide_eq_true_2 by eauto. reflexivity.
Qed.

Lemma create_existing_is_noop_witness :
  let σ : fs := {[ today0 := u "# 📅 今日计划
" ]} in
  create_today_from_template env0 false σ =
    (inr [ ("created"%string, VBool false); ("path"%string, VStr today0);
           ("reason"%string, VStr (u "exists")) ], σ).
Proof.
  intros σ.
  apply (create_existing_is_noop env0 σ (u "# 📅 今日计划
")).
  vm_compute. reflexivity.
Defined.

(** ** Setting a status *)




(** ** Inserting a task or a note *)

(** C5, as the code has it: a successful [add_task] or [append_note]
    (the file exists, a section title starts with the prefix, and the
    text can be written, that is, UTF-8 encodes it) only rewrites that
    file; when the inserted text has no line-break character, the
    document read back has exactly one line more, the new line, and all
    former lines unchanged and in their order. *)
Theorem insertion_preserves_content (e : env) (prefix task_text status note_line : str)
    (path : option str) (σ : fs) (c : str) :
  let p := default (day_path e (today_ymd e)) path in
  let lines := splitlines (universal_newlines c) in
  σ !! p = Some c → is_Some (_section_range lines prefix) →
  (no_linebreak task_text → encodable task_text →
   ∃ (k : nat) c',
     add_task e prefix task_text status path σ =
       (inr [("inserted"%string, VBool true); ("line"%string, VInt (Z.of_nat k))],
        <[p := c']> σ) ∧
     splitlines (universal_newlines c') =
       take k lines ++ (u "- " ++ mark_for status ++ u " " ++ task_text) :: drop k lines ∧
     length (splitlines (universal_newlines c')) = S (length lines)) ∧
  (no_linebreak note_line → encodable note_line →
   ∃ (k : nat) c',
     append_note e prefix note_line path σ =
       (inr [("appended"%string, VBool true); ("line"%string, VInt (Z.of_nat k))],
        <[p := c']> σ) ∧
     splitlines (universal_newlines c') =
       take k lines ++ (u "- " ++ note_line) :: drop k lines ∧
     length (splitlines (universal_newlines c')) = S (length lines)).
Proof.
  intros p lines Hc [[s en] Hrng].
  assert (Forall no_linebreak lines) as Hlines by apply splitlines_no_linebreak.
  split.
  - intros Htxt _.
    destruct (add_task_run e path σ c Hc prefix task_text status s en Hrng)
      as (k & _ & Hk & Hrun).
    eexists k, _. split; [exact Hrun|].
    rewrite inserted_lines_reload by (done || by apply task_line_no_linebreak).
    split; [done|apply length_inserted].
  - intros Htxt _.
    destruct (append_note_run e path σ c Hc prefix note_line s en Hrng)
      as (k & _ & Hk & Hrun).
    eexists k, _. split; [exact Hrun|].
    rewrite inserted_lines_reload by (done || by apply note_line_no_linebreak).
    split; [done|apply length_inserted].
Qed.

Lemma insertion_preserves_content_witness :
  ∃ (k : nat) c',
    add_task env0 (u "🎯") (u "新任务") (u "todo") None {[ today0 := u "## 🎯 今日重点任务
- [ ] 阅读
" ]} =
      (inr [("inserted"%string, VBool true); ("line"%string, VInt (Z.of_nat k))],
       <[today0 := c']> {[ today0 := u "## 🎯 今日重点任务
- [ ] 阅读
" ]}) ∧
    length (splitlines (universal_newlines c')) = 3%nat.
Proof.
  destruct (insertion_preserves_content env0 (u "🎯") (u "新任务") (u "todo") (u "备注") None
              {[ today0 := u "## 🎯 今日重点任务
- [ ] 阅读
" ]} (u "## 🎯 今日重点任务
- [ ] 阅读
")) as [Hadd _].
  - vm_compute. reflexivity.
  - vm_compute. by eexists.
  - destruct Hadd as (k & c' & Hrun & _ & Hlen).
    + decide_closed.
    + decide_closed.
    + exists k, c'. split; [exact Hrun|exact Hlen].
Defined.

(** C5, as worded, fails: a text with a line break in it makes the
    document two lines longer. *)
Lemma add_task_multiline_text_adds_two_lines :
  add_task env0 (u "🎯") (u "买菜
做饭") (u "todo") None {[ today0 := u "## 🎯 今日重点任务
- [ ] 阅读
" ]} =
    (inr [("inserted"%string, VBool true); ("line"%string, VInt 2)],
     {[ today0 := u "## 🎯 今日重点任务
- [ ] 阅读
- [ ] 买菜
做饭
" ]}) ∧
  length (splitlines (universal_newlines (u "## 🎯 今日重点任务
- [ ] 阅读
"))) = 2%nat ∧
  length (splitlines (universal_newlines (u "## 🎯 今日重点任务
- [ ] 阅读
- [ ] 买菜
做饭
"))) = 4%nat.
Proof. split_and!; vm_compute; reflexivity. Qed.

(** The calls that do not succeed write nothing. *)
Lemma add_task_failure (e : env) (prefix task_text status : str) (path : option str)
    (σ : fs) :
  let p := default (day_path e (today_ymd e)) path in
  (σ !! p = None ∨
   ∃ c, σ !! p = Some c ∧ _section_range (splitlines (universal_newlines c)) prefix = None) →
  ∃ r, add_task e prefix task_text status path σ =
         (inr (("inserted"%string, VBool false) :: r), σ).
Proof.
  intros p [Hnone|(c & Hc & Hrng)]; unfold add_task;
    rewrite bind_run, resolve_info_run; fold p.
  - rewrite Hnone, bool_decide_eq_false_2 by (by intros [? ?]). by eexists.
  - rewrite Hc, bool_decide_eq_true_2 by eauto. cbn [negb].
    rewrite bind_run, (load_run _ _ _ Hc), Hrng. by eexists.
Qed.

(** When some line below the heading is not blank, the task goes right
    after the last such line, and the blank lines that follow it stay
    after the new line. *)
Lemma add_task_after_last_nonblank (e : env) (prefix task_text status : str)
    (path : option str) (σ : fs) (c : str) (s en i : Z) (l : str) :
  let p := default (day_path e (today_ymd e)) path in
  let lines := splitlines (universal_newlines c) in
  σ !! p = Some c → _section_range lines prefix = Some (s, en) →
  s < i ≤ en → py_getitem lines i = Some l → ¬ blank l →
  (∀ j l', i < j ≤ en → py_getitem lines j = Some l' → blank l') →
  add_task e prefix task_text status path σ =
    (inr [("inserted"%string, VBool true); ("line"%string, VInt (i + 1))],
     <[p := join LF (take (Z.to_nat (i + 1)) lines
                       ++ (u "- " ++ mark_for status ++ u " " ++ task_text)
                       :: drop (Z.to_nat (i + 1)) lines) ++ LF]> σ).
Proof.
  intros p lines Hc Hrng Hi Hl Hnb Hafter.
  destruct (add_task_run e path σ c Hc prefix task_text status s en Hrng)
    as (k & Hpt & Hk & Hrun).
  fold p lines in Hrun, Hpt.
  assert (Z.of_nat k = i + 1) as Hki.
  { destruct Hpt as [[Hke Hall]|(l0 & Hk1 & Hl0 & Hnb0 & Hall)].
    - exfalso. apply Hnb. apply (Hall i); [lia|done].
    - destruct (Z.lt_trichotomy (Z.of_nat k - 1) i) as [Hlt|[Heq|Hgt]]; [|lia|].
      + exfalso. apply Hnb. apply (Hall i); [lia|done].
      + exfalso. apply Hnb0. apply (Hafter (Z.of_nat k - 1)); [lia|done]. }
  rewrite Hrun, Hki. replace k with (Z.to_nat (i + 1)) by lia. reflexivity.
Qed.

(** C2, in the fall-back case: the new line should become the section's
    last line, but [insert_at = end] with [lines.insert] puts
    it before the section's last line.  A section that is only its
    heading gets the task above the heading, outside the section (which
    is then line 1 alone); a section with blank lines gets it above the
    last blank line, not next to the following heading. *)
Theorem add_task_empty_section_misplaced :
  add_task env0 (u "🎯") (u "新任务") (u "todo") None {[ today0 := u "## 🎯 今日重点任务
## 🌞 生活安排
" ]} =
    (inr [("inserted"%string, VBool true); ("line"%string, VInt 0)],
     {[ today0 := u "- [ ] 新任务
## 🎯 今日重点任务
## 🌞 生活安排
" ]}) ∧
  _section_range [u "- [ ] 新任务"; u "## 🎯 今日重点任务"; u "## 🌞 生活安排"] (u "🎯")
    = Some (1, 1) ∧
  add_task env0 (u "🎯") (u "新任务") (u "todo") None {[ today0 := u "## 🎯 今日重点任务


## 🌞 生活安排
" ]} =
    (inr [("inserted"%string, VBool true); ("line"%string, VInt 2)],
     {[ today0 := u "## 🎯 今日重点任务

- [ ] 新任务

## 🌞 生活安排
" ]}).
Proof. split_and!; vm_compute; reflexivity. Qed.

(** ** Paths of the daily files *)

Lemma startswith_nil (s : str) : startswith s [] = true.
Proof. by destruct s. Qed.

Lemma startswith_app (p r : str) : startswith (p ++ r) p = true.
Proof.
  induction p as [|x p IH]; [apply startswith_nil|]. simpl. by rewrite N.eqb_refl.
Qed.

Lemma startswith_spec (s p : str) : startswith s p = true ↔ ∃ r, s = p ++ r.
Proof.
  revert s. induction p as [|x p IH]; intros s.
  - rewrite startswith_nil. split; [intros _; by exists s|done].
  - destruct s as [|c s]; simpl.
    + split; [done|]. by intros [r [=]].
    + rewrite andb_true_iff, IH, N.eqb_eq. split.
      * intros [-> [r ->]]. by exists r.
      * intros [r [= -> ->]]. split; [done|by exists r].
Qed.

Lemma name_part_no_sep_start (b : str) : name_part b → startswith b SEP = false.
Proof.
  intros [Hne Hsep]. destruct b as [|c r]; [done|]. simpl.
  destruct (N.eqb_spec c 47) as [->|]; [|done].
  exfalso. apply Hsep. apply list_elem_of_here.
Qed.

Lemma name_part_no_sep_end (b : str) : name_part b → endswith b SEP = false.
Proof.
  intros [Hne Hsep]. unfold endswith.
  destruct (rev b) as [|c r] eqn:E; [done|]. simpl.
  destruct (N.eqb_spec c 47) as [->|]; [|done].
  exfalso. apply Hsep. apply list_elem_of_In, in_rev. rewrite E. by left.
Qed.

Lemma endswith_app (a b s : str) : (length s ≤ length b)%nat → endswith (a ++ b) s = endswith b s.
Proof.
  unfold endswith. rewrite rev_app_distr, <- (length_rev b), <- (length_rev s).
  generalize (rev a) as a'. generalize (rev s) as s'. generalize (rev b) as b'.
  clear. induction b' as [|c b' IH]; intros s' a' Hlen.
  - destruct s'; [|simpl in Hlen; lia]. simpl. by rewrite !startswith_nil.
  - destruct s' as [|x s']; [done|]. simpl in *. rewrite IH by lia. done.
Qed.

Lemma open_path_app (a b : str) : name_part b → open_path (a ++ b).
Proof.
  intros Hb. split.
  - destruct Hb as [Hne _]. by destruct a, b.
  - rewrite endswith_app; [by apply name_part_no_sep_end|].
    destruct Hb as [Hne _]. destruct b; [done|]. simpl. lia.
Qed.

Lemma path_join_open (a b : str) :
  open_path a → name_part b → path_join a [b] = a ++ SEP ++ b ∧ open_path (a ++ SEP ++ b).
Proof.
  intros [Ha Hend] Hb. split.
  - unfold path_join. cbn [foldl]. rewrite name_part_no_sep_start by done.
    rewrite bool_decide_eq_false_2 by done. by rewrite Hend.
  - rewrite app_assoc. by apply open_path_app.
Qed.

Lemma path_join_cons (a b : str) (ps : list str) :
  path_join a (b :: ps) = path_join (path_join a [b]) ps.
Proof. reflexivity. Qed.

Lemma DAILY_ROOT_open (e : env) : open_path (DAILY_ROOT e).
Proof.
  unfold DAILY_ROOT. rewrite path_join_cons.
  assert (name_part (u "DailyPlan")) as H1 by (split; decide_closed).
  assert (name_part (u "daily-plans")) as H2 by (split; decide_closed).
  assert (open_path (path_join (BASE_DIR e) [u "DailyPlan"])) as Ho.
  { unfold path_join. cbn [foldl]. rewrite name_part_no_sep_start by done.
    destruct (_ || _); [by apply open_path_app|].
    rewrite app_assoc. by apply open_path_app. }
  destruct (path_join_open _ _ Ho H2) as [-> ?]. done.
Qed.

Lemma digits_name_part (s : str) : digits s → name_part s.
Proof.
  intros [Hne Hd]. split; [done|]. intros Hin.
  rewrite Forall_forall in Hd. apply Hd in Hin. lia.
Qed.

Lemma month_dir_open (e : env) : wf_env e → open_path (month_dir e).
Proof.
  intros (Hy%digits_name_part & Hm%digits_name_part & _).
  unfold month_dir. rewrite path_join_cons.
  destruct (path_join_open _ _ (DAILY_ROOT_open e) Hy) as [-> Ho].
  by destruct (path_join_open _ _ Ho Hm) as [-> ?].
Qed.

Lemma name_part_md (d : str) : name_part d → name_part (d ++ u ".md").
Proof.
  intros [Hne Hsep]. split; [by destruct d|].
  rewrite elem_of_app. intros [?|H]; [done|]. revert H. decide_closed.
Qed.

Lemma today_in_month (e : env) :
  wf_env e → day_path e (today_ymd e) = month_dir e ++ SEP ++ (today_ymd e).2 ++ u ".md".
Proof.
  intros Hwf. pose proof (month_dir_open e Hwf) as Ho.
  destruct Hwf as (_ & _ & Hd%digits_name_part). unfold day_path, month_dir in *.
  destruct (today_ymd e) as [[y m] d]. cbn [fst snd] in *.
  change (path_join (DAILY_ROOT e) [y; m; d ++ u ".md"])
    with (path_join (path_join (DAILY_ROOT e) [y; m]) [d ++ u ".md"]).
  by destruct (path_join_open _ _ Ho (name_part_md d Hd)) as [-> _].
Qed.

Lemma endswith_md (d : str) : endswith (d ++ u ".md") (u ".md") = true.
Proof. unfold endswith. rewrite rev_app_distr. apply startswith_app. Qed.





(** ** Rollover *)






(** ** Tasks above the first heading *)



(** * Further properties of the module *)

(** ** Operations on a missing file *)




(** ** What [read_structured] reports *)

Lemma task_at_core (lines : list str) (i : Z) :
  0 ≤ i → task_at lines i = true ↔ is_Some (core_at lines i).
Proof.
  intros Hi. unfold task_at, core_at. rewrite py_getitem_nonneg by done.
  destruct (lines !! Z.to_nat i) as [l|]; simpl.
  - rewrite bool_decide_eq_true.
    destruct (TASK_MARK_RE_match l) as [[mark g2]|]; simpl.
    + split; intros _; by eexists.
    + split; intros [x Hx]; discriminate Hx.
  - split; [done|]. intros [x Hx]. discriminate Hx.
Qed.

Lemma omap_core_indices (lines : list str) (idxs : list Z) :
  Forall (λ i, 0 ≤ i) idxs →
  (λ c : Z * str * str, c.1.1) <$> omap (core_at lines) idxs = task_indices lines idxs.
Proof.
  unfold task_indices. induction 1 as [|i idxs Hi _ IH]; [done|].
  cbn [omap list_omap]. rewrite filter_cons.
  destruct (core_at lines i) as [c|] eqn:Hc.
  - rewrite decide_True by (apply task_at_core; [done|by eexists]).
    rewrite fmap_cons, IH. f_equal. by apply core_at_index in Hc.
  - rewrite decide_False; [exact IH|].
    intros Ht. apply task_at_core in Ht; [|done]. rewrite Hc in Ht. by destruct Ht.
Qed.

Lemma iter_tasks_indices (lines : list str) (s en : Z) (parent : str) :
  0 ≤ s → en < len lines →
  ∃ items, _iter_tasks lines s en parent = inr items ∧
           line_index <$> items = task_indices lines (range s (en + 1)).
Proof.
  intros Hs He.
  destruct (iter_tasks_spec lines s en parent Hs He) as (items & Hrun & Hcore & _).
  exists items. split; [done|].
  rewrite <- omap_core_indices, <- Hcore.
  - rewrite <- list_fmap_compose. reflexivity.
  - apply Forall_forall. intros i Hi. unfold range in Hi. apply elem_of_seqZ in Hi. lia.
Qed.

Lemma read_sections_loop_indices (lines : list str) (secs : list Section_) :
  ∀ payload,
  Forall (λ s, 0 ≤ start s ∧ end_ s < len lines) secs →
  ∃ new, read_sections_loop lines secs payload = inr (payload ++ new) ∧
         new.*1 = secs ∧
         Forall (λ st, line_index <$> st.2 =
                       task_indices lines (range (start st.1) (end_ st.1 + 1))) new.
Proof.
  induction secs as [|sec rest IH]; intros payload Hall.
  - exists []. simpl. rewrite app_nil_r. split_and!; [done|done|constructor].
  - apply Forall_cons in Hall as [[Hs He] Hall]. simpl.
    destruct (iter_tasks_indices lines (start sec) (end_ sec) (title sec) Hs He)
      as (items & Hrun & Hidx).
    rewrite Hrun.
    destruct (IH (payload ++ [(sec, items)]) Hall) as (new & -> & Hfst & Hnew).
    exists ((sec, items) :: new). rewrite <- app_assoc. split_and!; [done| |].
    + rewrite fmap_cons, Hfst. reflexivity.
    + by constructor.
Qed.

Lemma range_app (a b c : Z) : a ≤ b ≤ c → range a b ++ range b c = range a c.
Proof.
  intros H. unfold range.
  replace (c - a) with ((b - a) + (c - b)) by lia.
  rewrite seqZ_app by lia. do 2 f_equal. lia.
Qed.

Lemma close_ranges (n : Z) (hs : list (str * Z)) :
  StronglySorted before hs → Forall (λ h, h.2 < n) hs →
  concat ((λ s, range (start s) (end_ s + 1)) <$> close n hs) =
  match hs with
  | [] => []
  | (_, i) :: _ => range i n
  end.
Proof.
  induction hs as [|[t i] tl IH]; [done|].
  intros [Hs Hlt]%StronglySorted_inv [Hi Hall]%Forall_cons. simpl in Hi.
  cbn [close]. rewrite fmap_cons. cbn [concat start end_].
  rewrite (IH Hs Hall).
  destruct tl as [|[t' j] tl'].
  - simpl. rewrite app_nil_r. f_equal. lia.
  - apply Forall_cons in Hlt as [Hij _]. apply Forall_cons in Hall as [Hj _].
    unfold before in Hij. simpl in Hij, Hj.
    replace (j - 1 + 1) with j by lia. apply range_app. lia.
Qed.

(** X2: [read_structured] on an existing file never fails and writes
    nothing; it reports the sections of [_parse_sections] in order, and
    the tasks it lists, section after section, are exactly the task
    lines from the first [##] heading to the end of the document, each
    once and in document order. *)
Theorem read_structured_covers (e : env) (path : option str) (σ : fs) (c : str) :
  let p := default (day_path e (today_ymd e)) path in
  let lines := splitlines (universal_newlines c) in
  σ !! p = Some c →
  ∃ payload,
    read_structured e path σ =
      (inr [ ("exists"%string, VBool true); ("path"%string, VStr p);
             ("sections"%string, VList ((λ st, section_payload st.1 st.2) <$> payload)) ], σ) ∧
    payload.*1 = _parse_sections lines ∧
    concat ((λ st, line_index <$> st.2) <$> payload) =
      match _parse_sections lines with
      | [] => []
      | s :: _ => task_indices lines (range (start s) (len lines))
      end.
Proof.
  intros p lines Hc.
  destruct (read_sections_loop_indices lines (_parse_sections lines) [])
    as (payload & Hrun & Hfst & Hidx).
  { apply Forall_forall. intros s Hs.
    destruct (parse_sections_elem lines s Hs) as (? & ? & _). lia. }
  exists payload. split_and!; [|done|].
  - unfold read_structured.
    rewrite bind_run, (resolve_existing e path σ c Hc). cbn [negb].
    rewrite bind_run, (load_existing e path σ c Hc). fold lines.
    rewrite bind_run, lift_run, Hrun. reflexivity.
  - assert ((λ st : Section_ * list TaskItem, line_index <$> st.2) <$> payload =
            (λ s, task_indices lines (range (start s) (end_ s + 1))) <$> payload.*1) as ->.
    { clear Hrun Hfst. induction Hidx as [|st pl Hst _ IH]; [done|].
      rewrite !fmap_cons, Hst, IH. reflexivity. }
    rewrite Hfst.
    assert (∀ secs : list Section_,
              concat ((λ s, task_indices lines (range (start s) (end_ s + 1))) <$> secs) =
              task_indices lines (concat ((λ s, range (start s) (end_ s + 1)) <$> secs))) as ->.
    { induction secs as [|s secs IH]; [done|].
      rewrite !fmap_cons. cbn [concat]. rewrite IH.
      unfold task_indices. by rewrite filter_app. }
    rewrite parse_sections_close.
    rewrite close_ranges.
    + destruct (heads 0 lines) as [|[t i] tl]; [done|]. reflexivity.
    + apply heads_sorted.
    + eapply Forall_impl; [apply (heads_range lines 0)|]. simpl. intros h ?. lia.
Qed.

Lemma read_structured_covers_witness :
  ∃ payload,
    read_structured env0 None {[ today0 := scenario_doc ]} =
      (inr [ ("exists"%string, VBool true); ("path"%string, VStr today0);
             ("sections"%string, VList ((λ st, section_payload st.1 st.2) <$> payload)) ],
       {[ today0 := scenario_doc ]}) ∧
    concat ((λ st, line_index <$> st.2) <$> payload) = [1; 2; 3].
Proof.
  destruct (read_structured_covers env0 None {[ today0 := scenario_doc ]} scenario_doc)
    as (payload & Hrun & _ & Hidx).
  - vm_compute. reflexivity.
  - exists payload. split; [exact Hrun|]. rewrite Hidx. vm_compute. reflexivity.
Defined.

(** ** Subsection labels *)

Lemma sub_at_step (lines : list str) (s a : Z) (sub : option str) (line : str) :
  s ≤ a → py_getitem lines a = Some line → sub_at lines s a sub →
  sub_at lines s (a + 1)
    (if H3_RE_match line then Some (heading_title line) else sub).
Proof.
  intros Hsa Hline Hsub. destruct (H3_RE_match line) eqn:H3.
  - exists a, line. split_and!; [lia|lia|done|done|done|]. intros j' l' Hj'. lia.
  - destruct sub as [ttl|]; simpl in *.
    + destruct Hsub as (j & l & Hj & Hl & Hh & Ht & Hlast).
      exists j, l. split_and!; [lia|lia|done|done|done|].
      intros j' l' Hj' Hl'. destruct (decide (j' = a)) as [->|Hne]; [congruence|].
      apply (Hlast j'); [lia|done].
    + intros j l Hj Hl. destruct (decide (j = a)) as [->|Hne]; [congruence|].
      apply (Hsub j); [lia|done].
Qed.

Lemma iter_tasks_loop_subsections (lines : list str) (parent : str) (s : Z) (n : nat) :
  ∀ (a : Z) (sub : option str) (results : list TaskItem),
  0 ≤ s ≤ a → a + Z.of_nat n ≤ len lines →
  sub_at lines s a sub →
  Forall (λ t, sub_at lines s (line_index t) (subsection t)) results →
  ∃ items, iter_tasks_loop lines parent (seqZ a (Z.of_nat n)) sub results = inr items ∧
           Forall (λ t, sub_at lines s (line_index t) (subsection t)) items.
Proof.
  induction n as [|n IH]; intros a sub results Hsa Han Hsub Hres.
  - exists results. done.
  - rewrite seqZ_cons by lia. cbn [iter_tasks_loop].
    replace (Z.pred (Z.of_nat (S n))) with (Z.of_nat n) by lia.
    replace (Z.succ a) with (a + 1) by lia.
    assert (is_Some (lines !! Z.to_nat a)) as [line Hline].
    { apply lookup_lt_is_Some. unfold len in Han. lia. }
    assert (py_getitem lines a = Some line) as Hget.
    { rewrite py_getitem_nonneg by lia. done. }
    rewrite Hget.
    pose proof (sub_at_step lines s a sub line (proj2 Hsa) Hget Hsub) as Hstep.
    destruct (H3_RE_match line) eqn:H3.
    + apply IH; [lia|lia|done|done].
    + destruct (TASK_MARK_RE_match line) as [[mark g2]|].
      * apply IH; [lia|lia|done|].
        apply Forall_app. split; [done|]. constructor; [|constructor]. exact Hsub.
      * apply IH; [lia|lia|done|done].
Qed.

(** X3: every task item of [_iter_tasks] carries as its subsection the
    title of the nearest [###] heading above it inside the scanned
    range, and no subsection when the range has no such heading above
    it; a heading before the start of the range does not count. *)
Theorem iter_tasks_subsections (lines : list str) (s en : Z) (parent : str) :
  0 ≤ s → en < len lines →
  ∃ items, _iter_tasks lines s en parent = inr items ∧
           Forall (λ t, sub_at lines s (line_index t) (subsection t)) items.
Proof.
  intros Hs He. unfold _iter_tasks, range.
  destruct (decide (s ≤ en + 1)) as [Hle|Hgt].
  - rewrite <- (Z2Nat.id (en + 1 - s)) by lia.
    apply iter_tasks_loop_subsections; [lia|lia| |constructor].
    intros j l Hj. lia.
  - rewrite seqZ_nil by lia. exists []. split; [done|constructor].
Qed.

Lemma iter_tasks_subsections_witness :
  ∃ items,
    _iter_tasks [u "## 🌞 生活安排"; u "- [ ] 喝水"; u "### 用餐时间"; u "- [ ] 早餐"] 0 3 (u "🌞")
      = inr items ∧
    subsection <$> items = [None; Some (u "用餐时间")].
Proof.
  destruct (iter_tasks_subsections
              [u "## 🌞 生活安排"; u "- [ ] 喝水"; u "### 用餐时间"; u "- [ ] 早餐"] 0 3 (u "🌞"))
    as (items & Hrun & _).
  - lia.
  - vm_compute. reflexivity.
  - exists items. split; [exact Hrun|].
    vm_compute in Hrun. injection Hrun as <-. vm_compute. reflexivity.
Defined.

(** ** Task lines as they are written *)

Lemma lstrip_idem (s : str) : lstrip (lstrip s) = lstrip s.
Proof.
  induction s as [|c r IH]; [done|]. simpl.
  destruct (isspace c) eqn:Hc; [exact IH|]. simpl. by rewrite Hc.
Qed.

Lemma lstrip_space (c : N) (r : str) : isspace c = true → lstrip (c :: r) = lstrip r.
Proof. intros H. simpl. by rewrite H. Qed.

Lemma lstrip_sub (s : str) (x : N) : x ∈ lstrip s → x ∈ s.
Proof.
  induction s as [|c r IH]; [done|]. simpl.
  destruct (isspace c); [|done]. intros H. apply list_elem_of_further, IH, H.
Qed.

Lemma strip_sub (s : str) (x : N) : x ∈ strip s → x ∈ s.
Proof.
  unfold strip, rstrip. intros H.
  apply list_elem_of_In, in_rev, list_elem_of_In in H.
  apply lstrip_sub in H. apply list_elem_of_In, in_rev, list_elem_of_In in H.
  by apply lstrip_sub.
Qed.

Lemma lstrip_length (s : str) : (length (lstrip s) ≤ length s)%nat.
Proof.
  induction s as [|c r IH]; [done|]. simpl. destruct (isspace c); simpl; lia.
Qed.

Lemma rstrip_split (s : str) : ∃ ws, s = rstrip s ++ ws ∧ all_space ws.
Proof.
  destruct (lstrip_split (rev s)) as (ws & Heq & Hws).
  exists (rev ws). split; [|by apply Forall_rev].
  unfold rstrip. rewrite <- rev_app_distr, <- Heq. by rewrite rev_involutive.
Qed.

Lemma lstrip_fixed_rstrip (s : str) : lstrip s = s → lstrip (rstrip s) = rstrip s.
Proof.
  intros Hs. destruct (rstrip_split s) as (ws & Heq & _).
  destruct (rstrip s) as [|c r]; [done|].
  rewrite Heq in Hs. simpl in *.
  destruct (isspace c) eqn:Hc; [|done].
  exfalso. pose proof (lstrip_length (r ++ ws)) as Hlen.
  rewrite Hs in Hlen. simpl in Hlen. lia.
Qed.

Lemma lstrip_strip (s : str) : lstrip (strip s) = strip s.
Proof. unfold strip. apply lstrip_fixed_rstrip, lstrip_idem. Qed.

Lemma rstrip_idem (s : str) : rstrip (rstrip s) = rstrip s.
Proof. unfold rstrip. by rewrite rev_involutive, lstrip_idem. Qed.

Lemma strip_idem (s : str) : strip (strip s) = strip s.
Proof.
  unfold strip at 1. rewrite lstrip_strip. unfold strip. apply rstrip_idem.
Qed.

Lemma strip_lstrip (s : str) : strip (lstrip s) = strip s.
Proof. unfold strip. by rewrite lstrip_idem. Qed.

Lemma dot_star_eol_lstrip_fixed (x g : str) :
  dot_star_eol x = Some g → lstrip x = x → lstrip g = g.
Proof.
  destruct x as [|c r]; simpl; [by intros [= <-]|].
  destruct (isspace c) eqn:Hc.
  - intros _ Hx. exfalso. pose proof (lstrip_length r) as Hlen.
    rewrite Hx in Hlen. simpl in Hlen. lia.
  - destruct (N.eqb_spec c 10) as [->|_]; [done|].
    destruct (dot_star_eol r) as [g'|]; [|done]. simpl. intros [= <-] _.
    simpl. by rewrite Hc.
Qed.

Lemma TASK_MARK_RE_group2 (l mark g2 : str) :
  TASK_MARK_RE_match l = Some (mark, g2) → lstrip g2 = g2 ∧ 10%N ∉ g2.
Proof.
  intros H. split.
  - unfold TASK_MARK_RE_match in H.
    destruct (lstrip l) as [|dash r1]; [done|].
    destruct (dash =? 45)%N; [|done].
    destruct (lstrip r1) as [|lb [|m [|rb r2]]]; try done.
    destruct ((lb =? 91)%N && is_mark_char m && (rb =? 93)%N); [|done].
    destruct (dot_star_eol (lstrip r2)) as [g|] eqn:Hg; [|done].
    injection H as _ <-. eapply dot_star_eol_lstrip_fixed; [exact Hg|apply lstrip_idem].
  - by apply TASK_MARK_RE_sound in H as (_ & _ & _ & _ & _ & _ & _ & _ & _ & _ & _ & ? & _).
Qed.

Lemma six_marks_shape (mark : str) :
  mark ∈ six_marks → ∃ m, mark = [91%N; m; 93%N] ∧ is_mark_char m = true.
Proof.
  unfold six_marks. intros Hin. set_unfold in Hin.
  destruct_or!; subst mark; eexists; split; reflexivity.
Qed.

(** The line [- <mark> <txt>], as the operations write it, is matched
    by [TASK_MARK_RE] with that mark and [txt] without its leading
    whitespace. *)
Lemma task_line_match (mark txt : str) :
  mark ∈ six_marks → 10%N ∉ txt →
  TASK_MARK_RE_match (u "- " ++ mark ++ u " " ++ txt) = Some (mark, lstrip txt).
Proof.
  intros (m & -> & Hm)%six_marks_shape Hlf.
  change (u "- ") with [45%N; 32%N]. change (u " ") with [32%N].
  unfold TASK_MARK_RE_match. cbn [app].
  rewrite (lstrip_nonspace 45) by reflexivity. rewrite N.eqb_refl.
  rewrite (lstrip_space 32) by reflexivity.
  rewrite (lstrip_nonspace 91) by reflexivity.
  rewrite !N.eqb_refl, Hm. cbn [andb].
  rewrite (lstrip_space 32) by reflexivity.
  rewrite <- (app_nil_r (lstrip txt)) at 1.
  rewrite (dot_star_eol_complete (lstrip txt) []); [reflexivity| |by left].
  intros H. by apply lstrip_sub in H.
Qed.

Lemma no_linebreak_no_lf (s : str) : no_linebreak s → 10%N ∉ s.
Proof.
  intros Hs Hin. unfold no_linebreak in Hs. rewrite Forall_forall in Hs.
  specialize (Hs _ Hin). done.
Qed.

Lemma group2_no_linebreak (l mark g2 : str) :
  TASK_MARK_RE_match l = Some (mark, g2) → no_linebreak l → no_linebreak g2.
Proof.
  intros Hm Hl.
  apply TASK_MARK_RE_sound in Hm as (ws1 & ws2 & m & ws3 & eol & -> & _).
  unfold no_linebreak in *. rewrite !Forall_app in Hl. tauto.
Qed.

Lemma status_for_mark_for (st : str) :
  status_for (mark_for st) = if bool_decide (st ∈ six_statuses) then st else u "todo".
Proof.
  case_bool_decide as Hin.
  - unfold six_statuses in Hin. set_unfold in Hin.
    destruct_or!; subst st; vm_compute; reflexivity.
  - rewrite mark_for_unknown by done. vm_compute. reflexivity.
Qed.

(** ** Setting a status: reading back and repeating *)

Lemma set_task_status_reload (lines : list str) (task_text status : str) (k : nat)
    (l mark g2 : str) :
  Forall no_linebreak lines →
  lines !! k = Some l → TASK_MARK_RE_match l = Some (mark, g2) → strip g2 = task_text →
  (∀ (j : nat) l', (j < k)%nat → lines !! j = Some l' → ¬ task_with_text task_text l') →
  let new_line := u "- " ++ mark_for status ++ u " " ++ g2 in
  let lines1 := <[k := new_line]> lines in
  splitlines (universal_newlines (join LF lines1 ++ LF)) = lines1 ∧
  lines1 !! k = Some new_line ∧
  TASK_MARK_RE_match new_line = Some (mark_for status, g2) ∧
  (∀ (j : nat) l', (j < k)%nat → lines1 !! j = Some l' → ¬ task_with_text task_text l').
Proof.
  intros Hall Hk Hm Ht Hfirst new_line lines1.
  pose proof (lookup_lt_Some _ _ _ Hk) as Hlt.
  destruct (TASK_MARK_RE_group2 _ _ _ Hm) as [Hfix Hlf].
  assert (no_linebreak g2) as Hg2.
  { eapply group2_no_linebreak; [exact Hm|]. rewrite Forall_forall in Hall.
    apply Hall. by eapply list_elem_of_lookup_2. }
  split_and!.
  - apply load_save_lines.
    + intros Hnil. apply (f_equal length) in Hnil. unfold lines1 in Hnil.
      rewrite length_insert in Hnil. simpl in Hnil. lia.
    + apply Forall_insert; [done|]. by apply task_line_no_linebreak.
  - by apply list_lookup_insert_eq.
  - unfold new_line. rewrite task_line_match; [by rewrite Hfix|apply mark_for_in_six|done].
  - intros j l' Hj Hl'. unfold lines1 in Hl'.
    rewrite list_lookup_insert_ne in Hl' by lia. by apply (Hfirst j).
Qed.

(** X4: after a successful [set_task_status], the document read back
    differs from the one before only in the line of the task; that line
    is again a task line with the same text, [_find_task_line] finds it
    at the same index, and its status is the requested one when that is
    one of the six statuses and todo otherwise. *)
Theorem set_task_status_read_back (e : env) (task_text status : str) (path : option str)
    (σ : fs) (c : str) (k : nat) (l mark g2 : str) :
  let p := default (day_path e (today_ymd e)) path in
  let lines := splitlines (universal_newlines c) in
  σ !! p = Some c →
  lines !! k = Some l → TASK_MARK_RE_match l = Some (mark, g2) → strip g2 = task_text →
  (∀ (j : nat) l', (j < k)%nat → lines !! j = Some l' → ¬ task_with_text task_text l') →
  ∃ c' l',
    (set_task_status e task_text status path σ).2 = <[p := c']> σ ∧
    splitlines (universal_newlines c') = <[k := l']> lines ∧
    TASK_MARK_RE_match l' = Some (mark_for status, g2) ∧
    status_for (mark_for status) =
      (if bool_decide (status ∈ six_statuses) then status else u "todo") ∧
    _find_task_line (splitlines (universal_newlines c')) task_text = Some (Z.of_nat k).
Proof.
  intros p lines Hc Hk Hm Ht Hfirst.
  destruct (set_task_status_reload lines task_text status k l mark g2)
    as (Hreload & Hk1 & Hm1 & Hfirst1); try done.
  { apply splitlines_no_linebreak. }
  exists (join LF (<[k := u "- " ++ mark_for status ++ u " " ++ g2]> lines) ++ LF),
         (u "- " ++ mark_for status ++ u " " ++ g2).
  split_and!.
  - rewrite (set_task_status_run e path σ c Hc task_text status k l mark g2) by done.
    reflexivity.
  - exact Hreload.
  - exact Hm1.
  - apply status_for_mark_for.
  - rewrite Hreload. eapply find_task_line_first; [exact Hk1| |exact Hfirst1].
    exists (mark_for status), g2. done.
Qed.

Lemma set_task_status_read_back_witness :
  ∃ c' l',
    (set_task_status env0 (u "跑步") (u "done") None {[ today0 := scenario_doc ]}).2
      = <[today0 := c']> {[ today0 := scenario_doc ]} ∧
    splitlines (universal_newlines c') =
      <[2%nat := l']> (splitlines (universal_newlines scenario_doc)) ∧
    TASK_MARK_RE_match l' = Some (mark_for (u "done"), u "跑步").
Proof.
  destruct (set_task_status_read_back env0 (u "跑步") (u "done") None
              {[ today0 := scenario_doc ]} scenario_doc 2 (u "- [x] 跑步") (u "[x]") (u "跑步"))
    as (c' & l' & H1 & H2 & H3 & _).
  - vm_compute. reflexivity.
  - vm_compute. reflexivity.
  - vm_compute. reflexivity.
  - vm_compute. reflexivity.
  - intros j l' Hj Hl' (mark & g2 & Hm & Ht).
    destruct j as [|[|j]]; [| |lia]; vm_compute in Hl'; injection Hl' as <-;
      vm_compute in Hm; try discriminate Hm.
    injection Hm as <- <-. vm_compute in Ht. discriminate Ht.
  - exists c', l'. split_and!; assumption.
Defined.

(** X5: [set_task_status] is idempotent: a second call with the same
    arguments, on the store that the first call left, gives the same
    answer and leaves that store as it is. *)
Theorem set_task_status_idempotent (e : env) (task_text status : str) (path : option str)
    (σ : fs) (c : str) (k : nat) (l mark g2 : str) :
  let p := default (day_path e (today_ymd e)) path in
  let lines := splitlines (universal_newlines c) in
  σ !! p = Some c →
  lines !! k = Some l → TASK_MARK_RE_match l = Some (mark, g2) → strip g2 = task_text →
  (∀ (j : nat) l', (j < k)%nat → lines !! j = Some l' → ¬ task_with_text task_text l') →
  ∀ r σ', set_task_status e task_text status path σ = (r, σ') →
          set_task_status e task_text status path σ' = (r, σ').
Proof.
  intros p lines Hc Hk Hm Ht Hfirst r σ' Hrun.
  destruct (set_task_status_reload lines task_text status k l mark g2)
    as (Hreload & Hk1 & Hm1 & Hfirst1); try done.
  { apply splitlines_no_linebreak. }
  rewrite (set_task_status_run e path σ c Hc task_text status k l mark g2) in Hrun by done.
  fold p lines in Hrun.
  pose proof (f_equal fst Hrun) as Hr. pose proof (f_equal snd Hrun) as Hs.
  cbn [fst snd] in Hr, Hs. subst r σ'. clear Hrun.
  set (new_line := u "- " ++ mark_for status ++ u " " ++ g2) in *.
  set (c1 := join LF (<[k := new_line]> lines) ++ LF) in *.
  assert ((<[p := c1]> σ) !! p = Some c1) as Hc1 by apply lookup_insert_eq.
  rewrite (set_task_status_run e path (<[p := c1]> σ) c1 Hc1 task_text status k
             new_line (mark_for status) g2); fold p.
  - rewrite Hreload. fold new_line.
    rewrite list_insert_insert_eq. fold c1. by rewrite insert_insert_eq.
  - rewrite Hreload. exact Hk1.
  - exact Hm1.
  - exact Ht.
  - rewrite Hreload. exact Hfirst1.
Qed.

Lemma set_task_status_idempotent_witness :
  set_task_status env0 (u "跑步") (u "partial") None
    (set_task_status env0 (u "跑步") (u "partial") None {[ today0 := scenario_doc ]}).2
  = set_task_status env0 (u "跑步") (u "partial") None {[ today0 := scenario_doc ]}.
Proof.
  rewrite (surjective_pairing
             (set_task_status env0 (u "跑步") (u "partial") None {[ today0 := scenario_doc ]}))
    at 2.
  apply (set_task_status_idempotent env0 (u "跑步") (u "partial") None
           {[ today0 := scenario_doc ]} scenario_doc 2 (u "- [x] 跑步") (u "[x]") (u "跑步")).
  - vm_compute. reflexivity.
  - vm_compute. reflexivity.
  - vm_compute. reflexivity.
  - vm_compute. reflexivity.
  - intros j l' Hj Hl' (mark & g2 & Hm & Ht).
    destruct j as [|[|j]]; [| |lia]; vm_compute in Hl'; injection Hl' as <-;
      vm_compute in Hm; try discriminate Hm.
    injection Hm as <- <-. vm_compute in Ht. discriminate Ht.
  - apply surjective_pairing.
Defined.

(** ** Sections after an insertion *)

Lemma heads_app (l1 l2 : list str) (i : Z) :
  heads i (l1 ++ l2) = heads i l1 ++ heads (i + len l1) l2.
Proof.
  revert i. induction l1 as [|x l1 IH]; intros i.
  - simpl. unfold len. simpl. by rewrite Z.add_0_r.
  - cbn [app heads]. rewrite IH.
    replace (i + 1 + len l1) with (i + len (x :: l1)) by (unfold len; simpl; lia).
    by destruct (H2_RE_match x).
Qed.

Lemma heads_no_heading (block : list str) (i : Z) :
  Forall (λ x, H2_RE_match x = false) block → heads i block = [].
Proof.
  intros H. revert i. induction H as [|x block Hx _ IH]; intros i; [done|].
  simpl. rewrite Hx. apply IH.
Qed.

Lemma heads_shift (l : list str) (i d : Z) :
  heads (i + d) l = (λ h, (h.1, h.2 + d)) <$> heads i l.
Proof.
  revert i. induction l as [|x l IH]; intros i; [done|]. simpl.
  replace (i + d + 1) with (i + 1 + d) by lia. rewrite IH.
  by destruct (H2_RE_match x).
Qed.

Lemma close_shift (n k d : Z) (hs : list (str * Z)) :
  k ≤ n → close (n + d) (shift_head k d <$> hs) = shift_section k d <$> close n hs.
Proof.
  intros Hk. induction hs as [|[t i] tl IH]; [done|].
  rewrite fmap_cons. cbn [close]. unfold shift_head at 1. cbn [fst snd].
  rewrite fmap_cons, IH. f_equal.
  unfold shift_section. cbn [title start end_]. f_equal.
  destruct tl as [|[t' j] tl'].
  - simpl. destruct (Z.ltb_spec (n - 1) (k - 1)); lia.
  - rewrite fmap_cons. unfold shift_head at 1. cbn [fst snd].
    destruct (Z.ltb_spec j k), (Z.ltb_spec (j - 1) (k - 1)); lia.
Qed.

Lemma parse_sections_insert_block (l1 block l2 : list str) :
  Forall (λ x, H2_RE_match x = false) block →
  _parse_sections (l1 ++ block ++ l2) =
  shift_section (len l1) (len block) <$> _parse_sections (l1 ++ l2).
Proof.
  intros Hblock. rewrite !parse_sections_close.
  assert (len (l1 ++ block ++ l2) = len (l1 ++ l2) + len block) as ->.
  { unfold len. rewrite !length_app. lia. }
  rewrite <- close_shift by (unfold len; rewrite length_app; lia).
  f_equal. rewrite !heads_app, (heads_no_heading block) by done.
  rewrite app_nil_l, fmap_app. f_equal.
  - pose proof (heads_range l1 0) as Hr.
    induction Hr as [|h hs Hh _ IH]; [done|]. rewrite fmap_cons, <- IH. f_equal.
    destruct h as [t j]. unfold shift_head. simpl in *.
    destruct (Z.ltb_spec j (len l1)); [done|lia].
  - rewrite Z.add_0_l, heads_shift.
    pose proof (heads_range l2 (len l1)) as Hr.
    induction Hr as [|h hs Hh _ IH]; [done|]. rewrite !fmap_cons, IH. f_equal.
    destruct h as [t j]. unfold shift_head. simpl in *.
    destruct (Z.ltb_spec j (len l1)); [lia|done].
Qed.

Lemma insert_line_sections (lines : list str) (k : nat) (x : str) :
  (k ≤ length lines)%nat → H2_RE_match x = false →
  _parse_sections (take k lines ++ x :: drop k lines) =
  shift_section (Z.of_nat k) 1 <$> _parse_sections lines.
Proof.
  intros Hk Hx.
  pose proof (parse_sections_insert_block (take k lines) [x] (drop k lines)) as H.
  rewrite take_drop in H. unfold len in H. rewrite length_take_le in H by done.
  simpl in H. apply H. by constructor.
Qed.

Lemma section_range_shift (secs : list Section_) (prefix : str) (k d : Z) :
  find (λ sec, startswith (title sec) prefix) (shift_section k d <$> secs) =
  shift_section k d <$> find (λ sec, startswith (title sec) prefix) secs.
Proof.
  induction secs as [|s secs IH]; [done|].
  rewrite fmap_cons. cbn [find]. unfold shift_section at 1. cbn [title].
  destruct (startswith (title s) prefix); [done|exact IH].
Qed.

Lemma dash_line_no_heading (rest : str) : H2_RE_match (u "- " ++ rest) = false.
Proof. change (u "- ") with [45%N; 32%N]. by destruct rest. Qed.

(** X6: a successful [add_task] or [append_note] with a text that is
    free of line breaks and that UTF-8 encodes keeps the section structure of the document: read
    back, it has the same section titles in the same order, the
    sections below the inserted line moved down by one line, and the
    section that holds the new line one line longer. *)
Theorem insertion_keeps_sections (e : env) (prefix task_text status note_line : str)
    (path : option str) (σ : fs) (c : str) :
  let p := default (day_path e (today_ymd e)) path in
  let lines := splitlines (universal_newlines c) in
  σ !! p = Some c → is_Some (_section_range lines prefix) →
  (no_linebreak task_text → encodable task_text →
   ∃ (k : nat) c',
     add_task e prefix task_text status path σ =
       (inr [("inserted"%string, VBool true); ("line"%string, VInt (Z.of_nat k))],
        <[p := c']> σ) ∧
     _parse_sections (splitlines (universal_newlines c')) =
       shift_section (Z.of_nat k) 1 <$> _parse_sections lines) ∧
  (no_linebreak note_line → encodable note_line →
   ∃ (k : nat) c',
     append_note e prefix note_line path σ =
       (inr [("appended"%string, VBool true); ("line"%string, VInt (Z.of_nat k))],
        <[p := c']> σ) ∧
     _parse_sections (splitlines (universal_newlines c')) =
       shift_section (Z.of_nat k) 1 <$> _parse_sections lines).
Proof.
  intros p lines Hc [[s en] Hrng].
  assert (Forall no_linebreak lines) as Hlines by apply splitlines_no_linebreak.
  split.
  - intros Htxt _.
    destruct (add_task_run e path σ c Hc prefix task_text status s en Hrng)
      as (k & _ & Hk & Hrun).
    eexists k, _. split; [exact Hrun|].
    rewrite inserted_lines_reload by (done || by apply task_line_no_linebreak).
    apply insert_line_sections; [done|apply dash_line_no_heading].
  - intros Htxt _.
    destruct (append_note_run e path σ c Hc prefix note_line s en Hrng)
      as (k & _ & Hk & Hrun).
    eexists k, _. split; [exact Hrun|].
    rewrite inserted_lines_reload by (done || by apply note_line_no_linebreak).
    apply insert_line_sections; [done|apply dash_line_no_heading].
Qed.

Lemma insertion_keeps_sections_witness :
  ∃ (k : nat) c',
    append_note env0 (u "🎯") (u "备注") None {[ today0 := FALLBACK_TEMPLATE ]} =
      (inr [("appended"%string, VBool true); ("line"%string, VInt (Z.of_nat k))],
       <[today0 := c']> {[ today0 := FALLBACK_TEMPLATE ]}) ∧
    title <$> _parse_sections (splitlines (universal_newlines c')) =
    title <$> _parse_sections (splitlines (universal_newlines FALLBACK_TEMPLATE)).
Proof.
  destruct (insertion_keeps_sections env0 (u "🎯") (u "新任务") (u "todo") (u "备注") None
              {[ today0 := FALLBACK_TEMPLATE ]} FALLBACK_TEMPLATE) as [_ Hnote].
  - vm_compute. reflexivity.
  - vm_compute. by eexists.
  - destruct Hnote as (k & c' & Hrun & Hsec).
    + decide_closed.
    + decide_closed.
    + exists k, c'. split; [exact Hrun|]. rewrite Hsec.
      rewrite <- list_fmap_compose. reflexivity.
Defined.

(** ** A task read back after [add_task] *)

Lemma lookup_inserted {A} (l : list A) (k : nat) (x : A) :
  (k ≤ length l)%nat → (take k l ++ x :: drop k l) !! k = Some x.
Proof.
  intros Hk. rewrite list_lookup_middle; [done|]. by rewrite length_take_le.
Qed.

Lemma lookup_inserted_before {A} (l : list A) (k j : nat) (x : A) :
  (j < k)%nat → (k ≤ length l)%nat → (take k l ++ x :: drop k l) !! j = l !! j.
Proof.
  intros Hj Hk. rewrite lookup_app_l by (rewrite length_take_le; lia).
  by apply lookup_take_lt.
Qed.

Lemma lookup_inserted_after {A} (l : list A) (k j : nat) (x : A) :
  (k ≤ j)%nat → (k ≤ length l)%nat → (take k l ++ x :: drop k l) !! S j = l !! j.
Proof.
  intros Hj Hk. rewrite lookup_app_r by (rewrite length_take_le; lia).
  rewrite length_take_le by done.
  replace (S j - k)%nat with (S (j - k)) by lia. simpl.
  rewrite lookup_drop. f_equal. lia.
Qed.

(** X7: a task added by [add_task] with a text that is free of line
    breaks and that UTF-8 encodes is
    read back as a task on the reported line, with the text stripped
    and with the requested status when that is one of the six statuses
    and todo otherwise; [_find_task_line] finds the stripped text at
    that line or, when the document already had a task with this text
    above it, at that earlier task. *)
Theorem add_task_read_back (e : env) (prefix task_text status : str) (path : option str)
    (σ : fs) (c : str) :
  let p := default (day_path e (today_ymd e)) path in
  let lines := splitlines (universal_newlines c) in
  σ !! p = Some c → is_Some (_section_range lines prefix) →
  no_linebreak task_text → encodable task_text →
  ∃ (k j : nat) c',
    add_task e prefix task_text status path σ =
      (inr [("inserted"%string, VBool true); ("line"%string, VInt (Z.of_nat k))],
       <[p := c']> σ) ∧
    core_at (splitlines (universal_newlines c')) (Z.of_nat k) =
      Some (Z.of_nat k, (if bool_decide (status ∈ six_statuses) then status else u "todo"),
            strip task_text) ∧
    _find_task_line (splitlines (universal_newlines c')) (strip task_text) =
      Some (Z.of_nat j) ∧
    (j ≤ k)%nat ∧
    ((j < k)%nat → ∃ l, lines !! j = Some l ∧ task_with_text (strip task_text) l).
Proof.
  intros p lines Hc [[s en] Hrng] Htxt _.
  assert (Forall no_linebreak lines) as Hlines by apply splitlines_no_linebreak.
  destruct (add_task_run e path σ c Hc prefix task_text status s en Hrng)
    as (k & _ & Hk & Hrun).
  fold lines in Hk, Hrun.
  set (x := u "- " ++ mark_for status ++ u " " ++ task_text) in *.
  assert (TASK_MARK_RE_match x = Some (mark_for status, lstrip task_text)) as Hm.
  { apply task_line_match; [apply mark_for_in_six|by apply no_linebreak_no_lf]. }
  assert (splitlines (universal_newlines (join LF (take k lines ++ x :: drop k lines) ++ LF))
          = take k lines ++ x :: drop k lines) as Hreload.
  { apply inserted_lines_reload; [done|by apply task_line_no_linebreak]. }
  pose proof (lookup_inserted lines k x Hk) as Hx.
  destruct (find_task_line_at_most _ k x _ _ Hx Hm)
    as (j & lj & mj & gj & Hj & Hlj & Hmj & Hgj & _ & Hfind).
  rewrite strip_lstrip in Hgj, Hfind.
  exists k, j, (join LF (take k lines ++ x :: drop k lines) ++ LF).
  rewrite Hreload. split_and!; [exact Hrun| |exact Hfind|exact Hj|].
  - unfold core_at. rewrite Nat2Z.id, Hx. cbn [mbind option_bind]. rewrite Hm.
    cbn [mbind option_bind]. by rewrite status_for_mark_for, strip_lstrip.
  - intros Hlt. exists lj. split; [|by exists mj, gj].
    by rewrite <- (lookup_inserted_before lines k j x).
Qed.

Lemma add_task_read_back_witness :
  ∃ (k j : nat) c',
    add_task env0 (u "🌞") (u "  散步 ") (u "done") None {[ today0 := FALLBACK_TEMPLATE ]} =
      (inr [("inserted"%string, VBool true); ("line"%string, VInt (Z.of_nat k))],
       <[today0 := c']> {[ today0 := FALLBACK_TEMPLATE ]}) ∧
    core_at (splitlines (universal_newlines c')) (Z.of_nat k) =
      Some (Z.of_nat k, u "done", u "散步") ∧
    _find_task_line (splitlines (universal_newlines c')) (u "散步") = Some (Z.of_nat j) ∧
    (j ≤ k)%nat.
Proof.
  destruct (add_task_read_back env0 (u "🌞") (u "  散步 ") (u "done") None
              {[ today0 := FALLBACK_TEMPLATE ]} FALLBACK_TEMPLATE)
    as (k & j & c' & Hrun & Hcore & Hfind & Hj & _).
  - vm_compute. reflexivity.
  - vm_compute. by eexists.
  - decide_closed.
  - decide_closed.
  - exists k, j, c'. split_and!; [exact Hrun|exact Hcore|exact Hfind|exact Hj].
Defined.

(** ** The place of an inserted line *)

Lemma insertion_in_section (lines : list str) (prefix : str) (s en : Z) (k : nat) (x : str) :
  _section_range lines prefix = Some (s, en) → s < en →
  insertion_point lines s en (Z.of_nat k) → H2_RE_match x = false →
  s < Z.of_nat k ≤ en + 1 ∧
  _section_range (take k lines ++ x :: drop k lines) prefix = Some (s, en + 1).
Proof.
  intros Hrng Hlt Hpt Hx.
  pose proof (section_range_bounds _ _ _ _ Hrng) as [Hs Hen].
  assert (s < Z.of_nat k ≤ en + 1) as Hk.
  { destruct Hpt as [[-> _]|(l & Hb & _)]; lia. }
  split; [done|].
  unfold _section_range in *.
  rewrite insert_line_sections by (done || unfold len in Hen; lia).
  rewrite section_range_shift.
  destruct (find _ (_parse_sections lines)) as [sec|]; [|done].
  simpl in Hrng. injection Hrng as Hs' He'. simpl. rewrite Hs', He'.
  destruct (Z.ltb_spec s (Z.of_nat k)); [|lia].
  destruct (Z.ltb_spec en (Z.of_nat k - 1)); [lia|done].
Qed.

(** X8: when the addressed section has at least one line below its
    heading, the line inserted by [add_task] or [append_note] (text
    free of line breaks that UTF-8 encodes) lies below the heading of that section and
    inside it: read back, the section found for the same prefix starts
    at the same line, ends one line later, and holds the new line. *)
Theorem insertion_lands_in_section (e : env) (prefix task_text status note_line : str)
    (path : option str) (σ : fs) (c : str) (s en : Z) :
  let p := default (day_path e (today_ymd e)) path in
  let lines := splitlines (universal_newlines c) in
  σ !! p = Some c → _section_range lines prefix = Some (s, en) → s < en →
  (no_linebreak task_text → encodable task_text →
   ∃ (k : nat) c',
     add_task e prefix task_text status path σ =
       (inr [("inserted"%string, VBool true); ("line"%string, VInt (Z.of_nat k))],
        <[p := c']> σ) ∧
     s < Z.of_nat k ≤ en + 1 ∧
     _section_range (splitlines (universal_newlines c')) prefix = Some (s, en + 1) ∧
     splitlines (universal_newlines c') !! k =
       Some (u "- " ++ mark_for status ++ u " " ++ task_text)) ∧
  (no_linebreak note_line → encodable note_line →
   ∃ (k : nat) c',
     append_note e prefix note_line path σ =
       (inr [("appended"%string, VBool true); ("line"%string, VInt (Z.of_nat k))],
        <[p := c']> σ) ∧
     s < Z.of_nat k ≤ en + 1 ∧
     _section_range (splitlines (universal_newlines c')) prefix = Some (s, en + 1) ∧
     splitlines (universal_newlines c') !! k = Some (u "- " ++ note_line)).
Proof.
  intros p lines Hc Hrng Hlt.
  assert (Forall no_linebreak lines) as Hlines by apply splitlines_no_linebreak.
  split.
  - intros Htxt _.
    destruct (add_task_run e path σ c Hc prefix task_text status s en Hrng)
      as (k & Hpt & Hk & Hrun).
    eexists k, _. split; [exact Hrun|].
    rewrite inserted_lines_reload by (done || by apply task_line_no_linebreak).
    destruct (insertion_in_section _ prefix s en k
                (u "- " ++ mark_for status ++ u " " ++ task_text) Hrng Hlt Hpt)
      as [Hb Hsec]; [apply dash_line_no_heading|].
    split_and!; [lia|lia|exact Hsec|by apply lookup_inserted].
  - intros Htxt _.
    destruct (append_note_run e path σ c Hc prefix note_line s en Hrng)
      as (k & Hpt & Hk & Hrun).
    eexists k, _. split; [exact Hrun|].
    rewrite inserted_lines_reload by (done || by apply note_line_no_linebreak).
    destruct (insertion_in_section _ prefix s en k (u "- " ++ note_line) Hrng Hlt Hpt)
      as [Hb Hsec]; [apply dash_line_no_heading|].
    split_and!; [lia|lia|exact Hsec|by apply lookup_inserted].
Qed.

Lemma insertion_lands_in_section_witness :
  ∃ (k : nat) c',
    add_task env0 (u "🌞") (u "散步") (u "todo") None {[ today0 := FALLBACK_TEMPLATE ]} =
      (inr [("inserted"%string, VBool true); ("line"%string, VInt (Z.of_nat k))],
       <[today0 := c']> {[ today0 := FALLBACK_TEMPLATE ]}) ∧
    9 < Z.of_nat k ≤ 15 + 1 ∧
    _section_range (splitlines (universal_newlines c')) (u "🌞") = Some (9, 15 + 1).
Proof.
  destruct (insertion_lands_in_section env0 (u "🌞") (u "散步") (u "todo") (u "备注") None
              {[ today0 := FALLBACK_TEMPLATE ]} FALLBACK_TEMPLATE 9 15) as [Htask _].
  - vm_compute. reflexivity.
  - vm_compute. reflexivity.
  - lia.
  - destruct Htask as (k & c' & Hrun & Hb & Hsec & _).
    + decide_closed.
    + decide_closed.
    + exists k, c'. split_and!; [exact Hrun|lia|lia|exact Hsec].
Defined.

(** ** Carried-over tasks *)








(** ** Rolling over twice *)






(** ** The order of [list.sort] on names *)


#[local] Instance str_le_total : Total str_le.
Proof.
  unfold Total, str_le. intros a. induction a as [|x a IH]; intros b; [by left|].
  destruct b as [|y b]; [by right|]. simpl.
  destruct (N.ltb_spec x y), (N.ltb_spec y x); try (by left); try (by right); try lia.
  destruct (N.eqb_spec x y), (N.eqb_spec y x); try lia. apply IH.
Qed.

#[local] Instance str_le_trans : Transitive str_le.
Proof.
  unfold Transitive, str_le. intros a. induction a as [|x a IH]; intros b c; [done|].
  destruct b as [|y b]; [done|]. destruct c as [|z c]; [done|]. simpl.
  destruct (N.ltb_spec x y), (N.ltb_spec y z), (N.ltb_spec x z); try done; try lia;
    destruct (N.eqb_spec x y), (N.eqb_spec y z), (N.eqb_spec x z); try done; try lia.
  apply IH.
Qed.



(** ** The donor of today's file *)

Lemma isdir_run (dir : str) (σ : fs) :
  isdir dir σ =
  (inr (bool_decide (Exists (λ p, startswith p (dir ++ SEP) = true) (map_to_list σ).*1)), σ).
Proof. reflexivity. Qed.

Lemma stored_key (σ : fs) (p : str) : p ∈ (map_to_list σ).*1 ↔ is_Some (σ !! p).
Proof.
  rewrite list_elem_of_fmap. split.
  - intros ([q c] & -> & Hin). apply elem_of_map_to_list in Hin. by exists c.
  - intros [c Hc]. exists (p, c). split; [done|]. by apply elem_of_map_to_list.
Qed.

Lemma listdir_run (dir : str) (σ : fs) :
  ∃ names, listdir dir σ = (inr names, σ) ∧
    ∀ g, g ∈ names ↔ is_Some (σ !! (dir ++ SEP ++ g)) ∧ 47%N ∉ g.
Proof.
  eexists. split; [reflexivity|]. intros g. rewrite list_elem_of_omap. split.
  - intros (p & Hp & HF). apply stored_key in Hp.
    destruct (startswith p (dir ++ SEP)) eqn:Hs; [|done].
    apply startswith_spec in Hs as [r ->]. cbv zeta in HF.
    assert (drop (length dir + 1) ((dir ++ SEP) ++ r) = r) as Hdrop.
    { rewrite drop_app_length'; [done|]. rewrite length_app. reflexivity. }
    rewrite Hdrop in HF. case_bool_decide; [done|]. injection HF as <-.
    by rewrite <- app_assoc in Hp.
  - intros [Hc Hg]. exists (dir ++ SEP ++ g). split; [by apply stored_key|].
    rewrite app_assoc, startswith_app. cbv zeta.
    rewrite drop_app_length' by (rewrite length_app; reflexivity).
    by rewrite bool_decide_eq_false_2.
Qed.

Lemma guess_template_source_pure (e : env) (σ : fs) :
  ∃ src, _guess_template_source e σ = (inr src, σ).
Proof.
  unfold _guess_template_source. rewrite bind_run.
  destruct (get_today_path_run e σ) as [date ->].
  destruct (today_ymd e) as [[y m] d]. rewrite bind_run, isdir_run.
  destruct (bool_decide _); [|by eexists].
  rewrite bind_run. destruct (listdir_run (path_join (DAILY_ROOT e) [y; m]) σ) as (names & -> & _).
  destruct (last _); by eexists.
Qed.


(** ** Creating today's file *)

Lemma fallback_saved : join LF (splitlines FALLBACK_TEMPLATE) ++ LF = FALLBACK_TEMPLATE.
Proof. vm_compute. reflexivity. Qed.

Lemma create_run (e : env) (force : bool) (σ : fs) (src : option str) :
  let today := day_path e (today_ymd e) in
  _guess_template_source e σ = (inr src, σ) →
  bool_decide (is_Some (σ !! today)) && negb force = false →
  create_today_from_template e force σ =
    match src ≫= (λ s, if bool_decide (s = []) then None else (λ cs, (s, cs)) <$> σ !! s) with
    | Some (s, cs) =>
      (inr [ ("created"%string, VBool true); ("path"%string, VStr today);
             ("source"%string, VStr s) ],
       <[today := join LF (retitle (splitlines
                    (join LF (splitlines (universal_newlines cs)) ++ LF))) ++ LF]> σ)
    | None =>
      (inr [ ("created"%string, VBool true); ("path"%string, VStr today);
             ("source"%string, VStr (u "fallback")) ],
       <[today := FALLBACK_TEMPLATE]> σ)
    end.
Proof.
  intros today Hguess Hex. unfold create_today_from_template.
  rewrite bind_run. destruct (get_today_path_run e σ) as [date ->].
  cbn [info_path]. fold today. rewrite bind_run, path_exists_run, Hex.
  unfold _ensure_parents. rewrite bind_ret_run, bind_run, Hguess.
  destruct src as [s|]; cbn [mbind option_bind].
  - clear Hex. destruct (decide (s = [])) as [Hs|Hs].
    + rewrite !(bool_decide_eq_true_2 (s = [])) by done.
      rewrite bind_ret_run, bind_run, save_run, fallback_saved. reflexivity.
    + rewrite !(bool_decide_eq_false_2 (s = [])) by done.
      rewrite bind_run, path_exists_run.
      destruct (σ !! s) as [cs|] eqn:Hcs; cbn [fmap option_fmap option_map].
      * rewrite bool_decide_eq_true_2 by eauto.
        rewrite bind_run, (load_run s σ cs Hcs), bind_run, save_run. reflexivity.
      * rewrite bool_decide_eq_false_2 by (by intros [? ?]).
        rewrite bind_run, save_run, fallback_saved. reflexivity.
  - rewrite bind_ret_run, bind_run, save_run, fallback_saved. reflexivity.
Qed.

Lemma create_noop_run (e : env) (σ : fs) :
  is_Some (σ !! day_path e (today_ymd e)) →
  create_today_from_template e false σ =
    (inr [ ("created"%string, VBool false);
           ("path"%string, VStr (day_path e (today_ymd e)));
           ("reason"%string, VStr (u "exists")) ], σ).
Proof.
  intros Hc. unfold create_today_from_template.
  rewrite bind_run. destruct (get_today_path_run e σ) as [date ->].
  cbn [info_path]. rewrite bind_run, path_exists_run.
  rewrite bool_decide_eq_true_2 by done. reflexivity.
Qed.

(** X11: when the date parts are digit strings, the month directory
    holds files only and no file lies on the way to today's file,
    [create_today_from_template] answers with a dictionary whose
    [created] entry tells whether today's file was written, which is
    the case exactly when [force] is set or the file was missing.  Afterwards today's file exists, every
    other file is as it was, and a further call without [force] changes
    nothing. *)
Theorem create_today_outcome (e : env) (force : bool) (σ : fs) :
  let today := day_path e (today_ymd e) in
  let written := force || negb (bool_decide (is_Some (σ !! today))) in
  wf_env e → flat_month e σ → no_file_above σ today →
  ∃ r σ',
    create_today_from_template e force σ = (inr r, σ') ∧
    head r = Some ("created"%string, VBool written) ∧
    is_Some (σ' !! today) ∧
    (∀ q, q ≠ today → σ' !! q = σ !! q) ∧
    (written = false → σ' = σ) ∧
    create_today_from_template e false σ' =
      (inr [ ("created"%string, VBool false); ("path"%string, VStr today);
             ("reason"%string, VStr (u "exists")) ], σ').
Proof.
  intros today written _ _ _.
  destruct (bool_decide (is_Some (σ !! today)) && negb force) eqn:Hex.
  - apply andb_true_iff in Hex as [Hex Hf]. apply bool_decide_eq_true_1 in Hex.
    destruct force; [done|].
    assert (written = false) as Hw.
    { unfold written. by rewrite bool_decide_eq_true_2. }
    exists [ ("created"%string, VBool false); ("path"%string, VStr today);
             ("reason"%string, VStr (u "exists")) ], σ.
    rewrite Hw. split_and!; try done. all: by apply create_noop_run.
  - assert (written = true) as Hw.
    { unfold written. destruct force; [done|]. rewrite andb_true_r in Hex. by rewrite Hex. }
    destruct (guess_template_source_pure e σ) as [src Hguess].
    rewrite (create_run e force σ src Hguess Hex). fold today. rewrite Hw.
    destruct (src ≫= _) as [[s cs]|]; eexists _, _; (split; [reflexivity|]).
    all: split_and!; [done|by rewrite lookup_insert_eq|
                      by intros q Hq; rewrite lookup_insert_ne|done|].
    all: apply create_noop_run; by rewrite lookup_insert_eq.
Qed.





Lemma scenario_month_names (g : str) :
  is_Some (scenario_month !! (month_dir env0 ++ SEP ++ g)) → g = u "01.md" ∨ g = u "02.md".
Proof.
  unfold scenario_month. rewrite lookup_insert_is_Some, lookup_singleton_is_Some.
  assert (u "/srv/assistant/DailyPlan/daily-plans/2026/11/01.md"
          = month_dir env0 ++ SEP ++ u "01.md") as -> by (vm_compute; reflexivity).
  assert (u "/srv/assistant/DailyPlan/daily-plans/2026/11/02.md"
          = month_dir env0 ++ SEP ++ u "02.md") as -> by (vm_compute; reflexivity).
  intros [H|[_ H]]; rewrite !(app_assoc (month_dir env0)) in H;
    apply app_inv_head in H; auto.
Qed.


Lemma create_today_outcome_witness :
  ∃ r σ',
    create_today_from_template env0 false scenario_month = (inr r, σ') ∧
    head r = Some ("created"%string, VBool true) ∧
    is_Some (σ' !! today0) ∧
    (∀ q, q ≠ today0 → σ' !! q = scenario_month !! q).
Proof.
  destruct (create_today_outcome env0 false scenario_month)
    as (r & σ' & Hrun & Hhead & Hsome & Hframe & _).
  - repeat split; decide_closed.
  - intros f [->| ->]%scenario_month_names; decide_closed.
  - intros a Ha. unfold scenario_month in Ha.
    rewrite lookup_insert_is_Some, lookup_singleton_is_Some in Ha.
    destruct Ha as [<-|[_ <-]]; vm_compute; reflexivity.
  - exists r, σ'. split_and!; [exact Hrun|exact Hhead|exact Hsome|exact Hframe].
Defined.

(** ** Arguments that are not trimmed *)

Lemma strip_head_nonspace (s : str) (c : N) (r : str) :
  strip s = c :: r → isspace c = false.
Proof.
  intros Hs. destruct (isspace c) eqn:Hc; [|done]. exfalso.
  pose proof (lstrip_strip s) as H. rewrite Hs in H.
  rewrite (lstrip_space c r Hc) in H.
  pose proof (lstrip_length r) as Hlen. rewrite H in Hlen. simpl in Hlen. lia.
Qed.

Lemma padded_prefix_no_title (s : str) (c : N) (rest : str) :
  isspace c = true → startswith (strip s) (c :: rest) = false.
Proof.
  intros Hc. destruct (strip s) as [|c' r] eqn:Hs; [done|]. simpl.
  apply strip_head_nonspace in Hs.
  destruct (N.eqb_spec c' c) as [->|]; [congruence|done].
Qed.

(** X13: the section prefix is compared as given with titles that
    [_parse_sections] has stripped, so a prefix that begins with a
    whitespace character finds no section in any document: [add_task]
    and [append_note] answer [section_not_found] and leave the store as
    it was. *)
Theorem padded_prefix_finds_no_section (e : env) (c0 : N) (rest task_text status note_line : str)
    (path : option str) (σ : fs) (c : str) :
  let p := default (day_path e (today_ymd e)) path in
  σ !! p = Some c → isspace c0 = true →
  _section_range (splitlines (universal_newlines c)) (c0 :: rest) = None ∧
  add_task e (c0 :: rest) task_text status path σ =
    (inr [("inserted"%string, VBool false);
          ("error"%string, VStr (u "section_not_found"))], σ) ∧
  append_note e (c0 :: rest) note_line path σ =
    (inr [("appended"%string, VBool false);
          ("error"%string, VStr (u "section_not_found"))], σ).
Proof.
  intros p Hc Hsp.
  assert (_section_range (splitlines (universal_newlines c)) (c0 :: rest) = None) as Hrng.
  { apply section_range_None, Forall_forall. intros s Hs.
    destruct (parse_sections_elem _ _ Hs) as (_ & _ & l & _ & _ & ->).
    by apply padded_prefix_no_title. }
  split; [exact Hrng|].
  exact (section_not_found_run e path σ c Hc (c0 :: rest) task_text status note_line Hrng).
Qed.

Lemma padded_prefix_finds_no_section_witness :
  add_task env0 (u " 🎯") (u "新任务") (u "todo") None {[ today0 := FALLBACK_TEMPLATE ]} =
    (inr [("inserted"%string, VBool false);
          ("error"%string, VStr (u "section_not_found"))],
     {[ today0 := FALLBACK_TEMPLATE ]}).
Proof.
  change (u " 🎯") with (32%N :: u "🎯").
  apply (padded_prefix_finds_no_section env0 32%N (u "🎯") (u "新任务") (u "todo") (u "备注")
           None {[ today0 := FALLBACK_TEMPLATE ]} FALLBACK_TEMPLATE).
  - vm_compute. reflexivity.
  - reflexivity.
Defined.

(** X14: the task text is compared as given with the stripped text of
    the task lines, so a text with whitespace at either end names no
    task of any document: [set_task_status] answers [task_not_found]
    and leaves the store as it was. *)
Theorem padded_task_text_not_found (e : env) (task_text status : str) (path : option str)
    (σ : fs) (c : str) :
  let p := default (day_path e (today_ymd e)) path in
  σ !! p = Some c → strip task_text ≠ task_text →
  _find_task_line (splitlines (universal_newlines c)) task_text = None ∧
  set_task_status e task_text status path σ =
    (inr [ ("updated"%string, VBool false);
           ("error"%string, VStr (u "task_not_found")) ], σ).
Proof.
  intros p Hc Hpad.
  assert (∀ l, l ∈ splitlines (universal_newlines c) → ¬ task_with_text task_text l) as Hno.
  { intros l _ (mark & g2 & _ & Ht). apply Hpad. rewrite <- Ht. apply strip_idem. }
  split; [by apply find_task_line_none|].
  by apply (set_task_status_no_task e path σ c Hc).
Qed.

Lemma padded_task_text_not_found_witness :
  set_task_status env0 (u "阅读 ") (u "done") None {[ today0 := scenario_doc ]} =
    (inr [ ("updated"%string, VBool false);
           ("error"%string, VStr (u "task_not_found")) ],
     {[ today0 := scenario_doc ]}).
Proof.
  apply (padded_task_text_not_found env0 (u "阅读 ") (u "done") None
           {[ today0 := scenario_doc ]} scenario_doc).
  - vm_compute. reflexivity.
  - decide_closed.
Defined.

(** ** An added task in the structured reading *)

Lemma read_sections_loop_items (lines : list str) (secs : list Section_) :
  ∀ payload,
  Forall (λ s, 0 ≤ start s ∧ end_ s < len lines) secs →
  ∃ new, read_sections_loop lines secs payload = inr (payload ++ new) ∧
         new.*1 = secs ∧
         Forall (λ st, _iter_tasks lines (start st.1) (end_ st.1) (title st.1) = inr st.2) new.
Proof.
  induction secs as [|sec rest IH]; intros payload Hall.
  - exists []. simpl. rewrite app_nil_r. split_and!; [done|done|constructor].
  - apply Forall_cons in Hall as [[Hs He] Hall]. simpl.
    destruct (iter_tasks_spec lines (start sec) (end_ sec) (title sec) Hs He)
      as (items & Hrun & _).
    rewrite Hrun.
    destruct (IH (payload ++ [(sec, items)]) Hall) as (new & -> & Hfst & Hnew).
    exists ((sec, items) :: new). rewrite <- app_assoc. split_and!; [done| |].
    + rewrite fmap_cons, Hfst. reflexivity.
    + by constructor.
Qed.

(** X15: a task added, with a text that is free of line breaks and
    that UTF-8 encodes, to a section that has at least one line below
    its heading shows up in the next [read_structured]: the section
    found for the prefix is reported with its range one line longer,
    and its tasks include one on the line that [add_task] returned,
    with the stripped text, the requested status (todo when it is not
    one of the six) and the title of that section. *)
Theorem added_task_is_listed (e : env) (prefix task_text wanted : str) (path : option str)
    (σ : fs) (c : str) (s en : Z) :
  let p := default (day_path e (today_ymd e)) path in
  let lines := splitlines (universal_newlines c) in
  σ !! p = Some c → _section_range lines prefix = Some (s, en) → s < en →
  no_linebreak task_text → encodable task_text →
  ∃ (k : nat) σ' payload sec items t,
    add_task e prefix task_text wanted path σ =
      (inr [("inserted"%string, VBool true); ("line"%string, VInt (Z.of_nat k))], σ') ∧
    read_structured e path σ' =
      (inr [ ("exists"%string, VBool true); ("path"%string, VStr p);
             ("sections"%string, VList ((λ st, section_payload st.1 st.2) <$> payload)) ],
       σ') ∧
    (sec, items) ∈ payload ∧ startswith (title sec) prefix = true ∧
    start sec = s ∧ end_ sec = en + 1 ∧
    t ∈ items ∧ line_index t = Z.of_nat k ∧ text t = strip task_text ∧
    status t = (if bool_decide (wanted ∈ six_statuses) then wanted else u "todo") ∧
    section t = title sec.
Proof.
  intros p lines Hc Hrng Hlt Htxt _.
  assert (Forall no_linebreak lines) as Hlines by apply splitlines_no_linebreak.
  destruct (add_task_run e path σ c Hc prefix task_text wanted s en Hrng)
    as (k & Hpt & Hk & Hrun).
  fold p lines in Hpt, Hk, Hrun.
  set (x := u "- " ++ mark_for wanted ++ u " " ++ task_text) in *.
  set (lines' := take k lines ++ x :: drop k lines).
  set (c' := join LF lines' ++ LF) in *.
  assert (splitlines (universal_newlines c') = lines') as Hreload.
  { apply inserted_lines_reload; [done|by apply task_line_no_linebreak]. }
  assert ((<[p := c']> σ) !! p = Some c') as Hc' by apply lookup_insert_eq.
  destruct (insertion_in_section lines prefix s en k x Hrng Hlt Hpt) as [Hb Hsec];
    [apply dash_line_no_heading|]. fold lines' in Hsec.
  destruct (section_range_Some _ _ _ _ Hsec) as (sec & Hin & Hs & He & Hpre).
  destruct (read_sections_loop_items lines' (_parse_sections lines') [])
    as (payload & Hloop & Hfst & Hitems).
  { apply Forall_forall. intros s0 Hs0.
    destruct (parse_sections_elem lines' s0 Hs0) as (? & ? & _). lia. }
  rewrite app_nil_l in Hloop.
  assert (∃ items, (sec, items) ∈ payload) as [items Hpay].
  { rewrite <- Hfst in Hin. apply list_elem_of_fmap in Hin as ([sec' items] & -> & Hin).
    by exists items. }
  rewrite Forall_forall in Hitems. pose proof (Hitems _ Hpay) as Hiter.
  cbn [fst snd] in Hiter. rewrite Hs, He in Hiter.
  pose proof (section_range_bounds _ _ _ _ Hsec) as [Hs0 He0].
  destruct (iter_tasks_spec lines' s (en + 1) (title sec)) as (items' & Hrun' & Hcore & Hok);
    [lia|lia|].
  rewrite Hiter in Hrun'. injection Hrun' as <-.
  assert (TASK_MARK_RE_match x = Some (mark_for wanted, lstrip task_text)) as Hm.
  { apply task_line_match; [apply mark_for_in_six|by apply no_linebreak_no_lf]. }
  assert (core_at lines' (Z.of_nat k) =
          Some (Z.of_nat k,
                (if bool_decide (wanted ∈ six_statuses) then wanted else u "todo"),
                strip task_text)) as Hat.
  { unfold core_at. rewrite Nat2Z.id. unfold lines'. rewrite lookup_inserted by done.
    cbn [mbind option_bind]. rewrite Hm. cbn [mbind option_bind].
    by rewrite status_for_mark_for, strip_lstrip. }
  assert (∃ t, t ∈ items ∧ task_core t =
            (Z.of_nat k, (if bool_decide (wanted ∈ six_statuses) then wanted else u "todo"),
             strip task_text)) as (t & Ht & Hct).
  { assert ((Z.of_nat k, (if bool_decide (wanted ∈ six_statuses) then wanted else u "todo"),
             strip task_text) ∈ task_core <$> items) as Hel.
    { rewrite Hcore. apply list_elem_of_omap. exists (Z.of_nat k). split; [|done].
      unfold range. apply elem_of_seqZ. lia. }
    apply list_elem_of_fmap in Hel as (t & Heq & Ht). by exists t. }
  rewrite Forall_forall in Hok. destruct (Hok t Ht) as (g2 & _ & _ & _ & _ & Hparent).
  unfold task_core in Hct. injection Hct as Hli Hst Htx.
  exists k, (<[p := c']> σ), payload, sec, items, t.
  split_and!; try done.
  unfold read_structured.
  rewrite bind_run, (resolve_existing e path _ c' Hc'). cbn [negb].
  rewrite bind_run, (load_existing e path _ c' Hc'), Hreload.
  rewrite bind_run, lift_run, Hloop. reflexivity.
Qed.

Lemma added_task_is_listed_witness :
  ∃ (k : nat) σ' payload sec items t,
    add_task env0 (u "🌞") (u " 散步 ") (u "done") None {[ today0 := FALLBACK_TEMPLATE ]} =
      (inr [("inserted"%string, VBool true); ("line"%string, VInt (Z.of_nat k))], σ') ∧
    read_structured env0 None σ' =
      (inr [ ("exists"%string, VBool true); ("path"%string, VStr today0);
             ("sections"%string, VList ((λ st, section_payload st.1 st.2) <$> payload)) ],
       σ') ∧
    (sec, items) ∈ payload ∧ t ∈ items ∧ line_index t = Z.of_nat k ∧
    text t = u "散步" ∧ status t = u "done" ∧ section t = title sec.
Proof.
  destruct (added_task_is_listed env0 (u "🌞") (u " 散步 ") (u "done") None
              {[ today0 := FALLBACK_TEMPLATE ]} FALLBACK_TEMPLATE 9 15)
    as (k & σ' & payload & sec & items & t & H1 & H2 & H3 & _ & _ & _ & H4 & H5 & H6 & H7 & H8).
  - vm_compute. reflexivity.
  - vm_compute. reflexivity.
  - lia.
  - decide_closed.
  - decide_closed.
  - exists k, σ', payload, sec, items, t. split_and!; done.
Defined.

(** * The chat log *)

Example chat_paging_ex :
  log_items example_loads example_log =
    [message (u "user") (u "hi"); message (u "assistant") (u "hello");
     message (u "user") (u "bye")] ∧
  page_up example_loads (λ _, []) 4 2 None example_log =
    [ [message (u "assistant") (u "hello"); message (u "user") (u "bye")];
      [message (u "user") (u "hi")] ] ∧
  (_build_messages example_loads (u "thanks") example_log).1 =
    inr [ message (u "system") SYSTEM_PROMPT; message (u "user") (u "hi");
          message (u "assistant") (u "hello"); message (u "user") (u "bye");
          message (u "user") (u "thanks") ].
Proof. vm_compute. split_and!; reflexivity. Qed.

(** An item that does not render turns the answer into the error, and
    the page that holds it brings the client nothing. *)
Example chat_nan_ex :
  length (log_items example_loads nan_log) = 2%nat ∧
  (api_chat_history example_loads (λ _, u "error") 50 None nan_log).1 =
    inr (HistoryError (u "error")) ∧
  page_up example_loads (λ _, u "error") 3 50 None nan_log = [] ∧
  (api_chat_history example_loads (λ _, u "error") 50 (Some 1) nan_log).1 =
    inr (HistoryPage [message (u "user") (u "hi")] None 2).
Proof. vm_compute. split_and!; reflexivity. Qed.

Section chat_log_properties.

Context (json_loads : str → option json) (exn_str : chat_exn → str).

Lemma history_loop_acc (lines : list str) (acc : list json) :
  history_loop json_loads lines acc = acc ++ history_loop json_loads lines [].
Proof.
  revert acc. induction lines as [|line rest IH]; intros acc; cbn [history_loop].
  - by rewrite app_nil_r.
  - cbv zeta. destruct (bool_decide (strip line = [])); [apply IH|].
    destruct (json_loads (strip line)) as [[| | | | | |d]|]; try apply IH.
    destruct (role_ok _); [|apply IH].
    rewrite (IH (acc ++ _)), (IH ([] ++ _)), <- app_assoc. reflexivity.
Qed.

Lemma recent_loop_history (lines : list str) (acc : list json) :
  recent_loop json_loads lines (role_content <$> acc) =
  role_content <$> history_loop json_loads lines acc.
Proof.
  revert acc. induction lines as [|line rest IH]; intros acc; cbn [history_loop recent_loop].
  - reflexivity.
  - cbv zeta. destruct (bool_decide (strip line = [])); [apply IH|].
    destruct (json_loads (strip line)) as [[| | | | | |d]|]; try apply IH.
    destruct (role_ok _); [|apply IH].
    rewrite <- IH, fmap_app. reflexivity.
Qed.

Lemma py_slice_inside {A} (l : list A) (a b : Z) :
  0 ≤ a ≤ b → b ≤ len l →
  py_slice l a b = take (Z.to_nat (b - a)) (drop (Z.to_nat a) l).
Proof.
  intros Hab Hb. unfold py_slice, py_clamp.
  destruct (Z.ltb_spec a 0), (Z.ltb_spec b 0); try lia.
  by rewrite !Z.min_l by lia.
Qed.

Lemma read_log_run (σ : fs) (c : str) :
  σ !! CHAT_LOG_PATH = Some c →
  read_file_lines CHAT_LOG_PATH σ = (inr (file_lines (universal_newlines c)), σ).
Proof.
  intros Hc. unfold read_file_lines. rewrite bind_run. unfold read_text. by rewrite Hc.
Qed.

Lemma page_response_renders (history : list json) (next_before : option Z) (total : Z) :
  Forall (λ v, renders v = true) history →
  page_response history next_before total = inr (HistoryPage history next_before total).
Proof.
  intros H. unfold page_response.
  assert (forallb renders history = true) as ->; [|done].
  induction H as [|v h Hv _ IH]; [done|]. simpl. by rewrite Hv, IH.
Qed.

Lemma api_chat_history_run (limit : Z) (before : option Z) (σ : fs) :
  let items := log_items json_loads σ in
  let total := len items in
  let end_idx := match before with None => total | Some b => Z.max 0 (Z.min b total) end in
  let start_idx := Z.max 0 (end_idx - Z.max 1 limit) in
  Forall (λ v, renders v = true) items →
  api_chat_history json_loads exn_str limit before σ =
    (inr (if total =? 0 then HistoryPage [] None 0
          else HistoryPage (py_slice items start_idx end_idx)
                 (if 0 <? start_idx then Some start_idx else None) total), σ).
Proof.
  intros items total end_idx start_idx Hrend.
  assert (∀ a b, Forall (λ v, renders v = true) (py_slice items a b)) as Hslice.
  { intros a b. unfold py_slice. by apply Forall_take, Forall_drop. }
  unfold api_chat_history, try_response. rewrite bind_run, path_exists_run.
  subst start_idx end_idx total. unfold items, log_items in *.
  destruct (σ !! CHAT_LOG_PATH) as [c|] eqn:Hc.
  - rewrite bool_decide_eq_true_2 by eauto. cbn [negb].
    rewrite bind_run, (read_log_run σ c Hc). cbv zeta.
    destruct (len (history_loop _ _ _) =? 0); [reflexivity|].
    unfold mret, M_ret. by rewrite page_response_renders.
  - rewrite bool_decide_eq_false_2 by (by intros [? ?]). reflexivity.
Qed.

Lemma page_up_spec (limit : Z) (σ : fs) (fuel : nat) :
  Forall (λ v, renders v = true) (log_items json_loads σ) →
  ∀ e : Z, 0 < e ≤ len (log_items json_loads σ) → (Z.to_nat e ≤ fuel)%nat →
  let pages := page_up json_loads exn_str fuel limit (Some e) σ in
  concat (reverse pages) = take (Z.to_nat e) (log_items json_loads σ) ∧
  Forall (λ pg, pg ≠ [] ∧ len pg ≤ Z.max 1 limit) pages.
Proof.
  intros Hrend. induction fuel as [|n IH]; intros e He Hfuel; [exfalso; lia|].
  cbn [page_up]. rewrite api_chat_history_run by done. cbv zeta.
  set (items := log_items json_loads σ) in *.
  destruct (Z.eqb_spec (len items) 0) as [|_]; [lia|].
  replace (Z.max 0 (Z.min e (len items))) with e by lia.
  set (start := Z.max 0 (e - Z.max 1 limit)).
  assert (0 ≤ start < e) as Hstart by (unfold start; lia).
  rewrite py_slice_inside by lia.
  set (slice := take (Z.to_nat (e - start)) (drop (Z.to_nat start) items)).
  assert (length slice = Z.to_nat (e - start)) as Hlen.
  { unfold slice. rewrite length_take, length_drop. unfold len in He. lia. }
  assert (slice ≠ [] ∧ len slice ≤ Z.max 1 limit) as Hslice.
  { split; [|unfold start, len in *; lia]. intros Hnil. rewrite Hnil in Hlen. simpl in Hlen. lia. }
  assert (take (Z.to_nat start) items ++ slice = take (Z.to_nat e) items) as Hjoin.
  { unfold slice. rewrite take_take_drop. f_equal. lia. }
  destruct (Z.ltb_spec 0 start) as [Hpos|Hzero].
  - destruct (IH start) as [Hcat Hall]; [lia|lia|].
    rewrite reverse_cons, concat_app, Hcat. cbn [concat]. rewrite app_nil_r.
    split; [exact Hjoin|by constructor].
  - rewrite reverse_singleton. cbn [concat]. rewrite app_nil_r.
    split; [|constructor; [exact Hslice|constructor]].
    rewrite <- Hjoin. replace start with 0 by lia. reflexivity.
Qed.

(** X16: paging through the chat history loses nothing and repeats
    nothing, when the log is a file or missing and every item of it
    renders (no NaN, no infinity, no string that UTF-8 does not
    encode).  A client that asks for the newest page and then follows
    [next_before] until it is absent receives, oldest page last, pages
    whose concatenation in log order is the whole list of user and
    assistant items of the log; every page holds at most
    [max(1, limit)] items and, when the log has any item, no page is
    empty; the store is not changed. *)
Theorem history_paging_complete (limit : Z) (σ : fs) :
  let items := log_items json_loads σ in
  let pages := page_up json_loads exn_str (S (length items)) limit None σ in
  ¬ is_directory σ CHAT_LOG_PATH → Forall (λ v, renders v = true) items →
  concat (reverse pages) = items ∧
  Forall (λ pg, len pg ≤ Z.max 1 limit) pages ∧
  (items ≠ [] → Forall (λ pg, pg ≠ []) pages) ∧
  ∀ before, (api_chat_history json_loads exn_str limit before σ).2 = σ.
Proof.
  intros items pages _ Hrend. unfold pages.
  assert (∀ before, (api_chat_history json_loads exn_str limit before σ).2 = σ) as Hpure.
  { intros before. by rewrite api_chat_history_run. }
  destruct (decide (items = [])) as [Hnil|Hne].
  - cbn [page_up]. rewrite api_chat_history_run by done. fold items. rewrite Hnil. simpl.
    split_and!; [done|constructor; [unfold len; simpl; lia|constructor]|done|done].
  - assert (0 < len items) as Hpos by (unfold len; destruct items; [done|simpl; lia]).
    cbn [page_up]. rewrite api_chat_history_run by done. cbv zeta. fold items.
    destruct (Z.eqb_spec (len items) 0) as [|_]; [lia|].
    set (start := Z.max 0 (len items - Z.max 1 limit)).
    assert (0 ≤ start < len items) as Hstart by (unfold start; lia).
    rewrite py_slice_inside by lia.
    set (slice := take (Z.to_nat (len items - start)) (drop (Z.to_nat start) items)).
    assert (slice = drop (Z.to_nat start) items) as Hslice.
    { unfold slice. apply take_ge. rewrite length_drop. unfold len. lia. }
    assert (length slice = Z.to_nat (len items - start)) as Hlen.
    { rewrite Hslice, length_drop. unfold len. lia. }
    assert (slice ≠ [] ∧ len slice ≤ Z.max 1 limit) as [Hs1 Hs2].
    { split; [|unfold start, len in *; lia]. intros Hn. rewrite Hn in Hlen. simpl in Hlen. lia. }
    destruct (Z.ltb_spec 0 start) as [Hp|Hz].
    + destruct (page_up_spec limit σ (length items) Hrend start) as [Hcat Hall];
        [fold items; lia|unfold len in Hstart; lia|]. fold items in Hcat.
      rewrite reverse_cons, concat_app, Hcat. cbn [concat]. rewrite app_nil_r.
      split_and!; [rewrite Hslice; apply take_drop| | |done].
      * constructor; [done|]. eapply Forall_impl; [exact Hall|]. by intros ? [_ ?].
      * intros _. constructor; [done|].
        eapply Forall_impl; [exact Hall|]. by intros ? [? _].
    + rewrite reverse_singleton. cbn [concat]. rewrite app_nil_r.
      split_and!; [|by constructor|by constructor|done].
      rewrite Hslice. replace start with 0 by lia. reflexivity.
Qed.

(** X17: what the model is sent, when the log is a file or missing and
    every item of it renders.  [_build_messages] returns the system
    prompt, then the role and content of the items of the newest
    history page of [CHAT_HISTORY_WINDOW] items, the same and in the
    same order as [api_chat_history] serves them, then the current user
    text: at most [CHAT_HISTORY_WINDOW + 2] messages.  It does not
    change the store, and a missing log gives the system prompt and the
    user text alone. *)
Theorem build_messages_window (current_user_text : str) (σ : fs) :
  ¬ is_directory σ CHAT_LOG_PATH →
  Forall (λ v, renders v = true) (log_items json_loads σ) →
  ∃ history next_before total,
    api_chat_history json_loads exn_str CHAT_HISTORY_WINDOW None σ =
      (inr (HistoryPage history next_before total), σ) ∧
    _build_messages json_loads current_user_text σ =
      (inr (message (u "system") SYSTEM_PROMPT ::
            (role_content <$> history) ++ [message (u "user") current_user_text]), σ) ∧
    len history ≤ CHAT_HISTORY_WINDOW ∧
    (σ !! CHAT_LOG_PATH = None → history = []).
Proof.
  intros _ Hrend.
  set (items := log_items json_loads σ) in *.
  assert (_load_recent_history json_loads CHAT_HISTORY_WINDOW σ =
          (inr (role_content <$> drop (Z.to_nat (Z.max 0 (len items - 50))) items), σ)) as Hrecent.
  { unfold _load_recent_history, try_except. rewrite bind_run, path_exists_run.
    unfold items, log_items.
    destruct (σ !! CHAT_LOG_PATH) as [c|] eqn:Hc.
    - rewrite bool_decide_eq_true_2 by eauto. cbn [negb].
      rewrite bind_run, (read_log_run σ c Hc).
      pose proof (recent_loop_history (file_lines (universal_newlines c)) []) as Hr.
      cbn [fmap list_fmap] in Hr. rewrite Hr.
      change (0 <? CHAT_HISTORY_WINDOW) with true. cbv iota.
      assert (∀ n, py_clamp n (- CHAT_HISTORY_WINDOW) = Z.max 0 (n - 50)) as Hclamp.
      { intros n. unfold py_clamp, CHAT_HISTORY_WINDOW. simpl. lia. }
      unfold py_slice_from. rewrite Hclamp, fmap_drop. unfold len. rewrite length_fmap.
      reflexivity.
    - rewrite bool_decide_eq_false_2 by (by intros [? ?]). reflexivity. }
  assert (0 ≤ len items) as Hlen0 by (unfold len; lia).
  pose proof (api_chat_history_run CHAT_HISTORY_WINDOW None σ Hrend) as Hpage.
  cbv zeta in Hpage. fold items in Hpage.
  assert (∀ history,
            _build_messages json_loads current_user_text σ =
              (inr (message (u "system") SYSTEM_PROMPT ::
                    (role_content <$> history) ++ [message (u "user") current_user_text]), σ)
            ↔ role_content <$> history =
              role_content <$> drop (Z.to_nat (Z.max 0 (len items - 50))) items) as Hbuild.
  { intros history. unfold _build_messages. cbv zeta. rewrite bind_run, Hrecent.
    rewrite bool_decide_eq_true_2 by (by vm_compute).
    unfold mret, M_ret. cbn [app]. split.
    - intros Heq. injection Heq as Heq. by apply app_inv_tail in Heq.
    - by intros ->. }
  destruct (Z.eqb_spec (len items) 0) as [Hz|Hnz].
  - assert (items = []) as Hnil by (destruct items; [done|unfold len in Hz; simpl in Hz; lia]).
    eexists [], None, 0. split_and!; [exact Hpage| |unfold len, CHAT_HISTORY_WINDOW; simpl; lia|done].
    apply Hbuild. by rewrite Hnil, drop_nil.
  - eexists _, _, _. split_and!; [exact Hpage| | |].
    + apply Hbuild. unfold CHAT_HISTORY_WINDOW. rewrite py_slice_inside by lia.
      f_equal. apply take_ge. rewrite length_drop. unfold len. lia.
    + unfold CHAT_HISTORY_WINDOW. rewrite py_slice_inside by lia.
      unfold len. rewrite length_take, length_drop. lia.
    + intros Hnone. exfalso. apply Hnz. unfold items, log_items. by rewrite Hnone.
Qed.

End chat_log_properties.

Lemma history_paging_complete_witness :
  concat (reverse (page_up example_loads (λ _, [])
                     (S (length (log_items example_loads example_log))) 2 None example_log))
  = log_items example_loads example_log.
Proof.
  apply (history_paging_complete example_loads (λ _, []) 2 example_log); decide_closed.
Defined.

Lemma build_messages_window_witness :
  ∃ history next_before total,
    api_chat_history example_loads (λ _, []) CHAT_HISTORY_WINDOW None example_log =
      (inr (HistoryPage history next_before total), example_log) ∧
    _build_messages example_loads (u "thanks") example_log =
      (inr (message (u "system") SYSTEM_PROMPT ::
            (role_content <$> history) ++ [message (u "user") (u "thanks")]), example_log) ∧
    length history = 3%nat.
Proof.
  destruct (build_messages_window example_loads (λ _, []) (u "thanks") example_log)
    as (history & next_before & total & Hpage & Hbuild & _).
  - decide_closed.
  - decide_closed.
  - exists history, next_before, total. split_and!; [exact Hpage|exact Hbuild|].
    vm_compute in Hpage. injection Hpage as <- _ _. reflexivity.
Defined.
